(** * PhoneNumberField: the input state machine of django-formset's phone widget

    A shallow embedding of [client/django-formset/PhoneNumber.ts].  The widget
    keeps three things in step on every event: the text shown in the editable
    field, the caret, and the value of the hidden host input.  The formatter
    ([AsYouType] of libphonenumber-js) and the browser are collaborators; the
    formatter is an interface here, the parts of the browser the widget reads
    and writes are fields of the state. *)

From Stdlib Require Import String Ascii.
From stdpp Require Import base option list numbers strings pretty relations sorting.

Open Scope string_scope.

(** ** Values exchanged with libphonenumber-js *)

Definition CountryCode := string.
Definition CountryCallingCode := string.

Inductive NumberType :=
  | MOBILE | FIXED_LINE | FIXED_LINE_OR_MOBILE | PREMIUM_RATE | TOLL_FREE
  | SHARED_COST | VOIP | PERSONAL_NUMBER | PAGER | UAN | VOICEMAIL.

Global Instance NumberType_eq_dec : EqDecision NumberType.
Proof. solve_decision. Defined.

(** What [asYouType.getNumber()] hands back when it has a parse:
    [getType()] may itself be undefined. *)
Record PhoneNumber := {
  nationalNumber : string;
  getType : option NumberType
}.

(** The formatter as the widget uses it.  [input] appends to the running
    input and returns the formatted whole; [create] is [new AsYouType(c)]. *)
Class AsYouType (F : Type) := {
  create : option CountryCode -> F;
  reset : F -> F;
  input : string -> F -> F * string;
  getNumberValue : F -> option string;
  getNumber : F -> option PhoneNumber;
  getCountry : F -> option CountryCode;
  isValid : F -> bool
}.

(** ** JavaScript helpers *)

(** [s.startsWith(p)] *)
Definition startsWith (s p : string) : bool := String.prefix p s.

(** Truthiness of a [string | undefined | null]: only a non-empty string. *)
Definition truthy (s : option string) : bool :=
  match s with
  | Some (String _ _) => true
  | _ => false
  end.

Definition upper (c : ascii) : ascii :=
  let n := nat_of_ascii c in
  if (97 <=? n)%nat && (n <=? 122)%nat then ascii_of_nat (n - 32) else c.

(** [s.toUpperCase()] for a text of ASCII characters ([isASCII]), which is
    what region codes are: there JavaScript maps a-z to A-Z and nothing
    else.  Other text is outside the model: JavaScript changes further
    letters and even the length there. *)
Fixpoint toUpperCase (s : string) : string :=
  match s with
  | EmptyString => EmptyString
  | String c r => String (upper c) (toUpperCase r)
  end.

(** Every character of [s] is below 128. *)
Fixpoint isASCII (s : string) : bool :=
  match s with
  | EmptyString => true
  | String c r => (nat_of_ascii c <? 128)%nat && isASCII r
  end.

(** ** The page as the widget sees it *)

(** One row of the picker:
    [<li data-country=.. data-calling-code=..>name <strong>+code</strong></li>],
    with or without the class [selected]. *)
Record Li := {
  countryName : string;
  data_calling_code : CountryCallingCode;
  data_country : CountryCode;
  selected : bool
}.

(** Events the widget forwards to the hidden host input. *)
Inductive HostEvent := EvFocus | EvBlur | EvInput.

(** Callbacks handed to [setTimeout(.., 0)]. *)
Inductive Timer := CaretToEnd | BlurCheck.

(** The result of running a handler: it returns, or a [TypeError] escapes it.
    Either way the mutations made so far stay. *)
Inductive Outcome (W : Type) :=
  | Returned (w : W)
  | Thrown (w : W).
Arguments Returned {W} w.
Arguments Thrown {W} w.

Definition after {W} (o : Outcome W) : W :=
  match o with Returned w | Thrown w => w end.

Definition returned {W} (o : Outcome W) : bool :=
  match o with Returned _ => true | Thrown _ => false end.

Section Field.

Context {F : Type} `{AsYouType F}.

(** The widget instance together with the DOM nodes it owns and the pieces
    of [window]/[document] it touches.

    - [innerText], [caret], [active]: the editable field's text, the start
      offset of the selection's first range ([None] when [rangeCount] is 0)
      and whether the field is [document.activeElement].  Lengths are
      [String.length], which is the JavaScript length on ASCII text.
    - [value], [validationMessage], [dispatched]: the hidden host input, its
      custom validity and the events dispatched on it, latest first.
    - [flag]: the region whose flag fills the opener, if any.
    - [items]: the rows of the picker in document order.
    - [subscriptions], [released]: how often [autoUpdate] was called (the n-th
      call returns the cleanup of subscription n), and the log of cleanups
      invoked, latest first.
    - [pending]: zero-delay timeouts not run yet, oldest first. *)
Record Widget := {
  defaultCountryCode : option CountryCode;
  mobileOnly : bool;
  asYouType : F;
  hasFocus : bool;
  isOpen : bool;
  isPristine : bool;
  cleanup : option nat;
  innerText : string;
  caret : option nat;
  active : bool;
  value : string;
  validationMessage : string;
  dispatched : list HostEvent;
  flag : option CountryCode;
  ariaExpanded : bool;
  items : list Li;
  subscriptions : nat;
  released : list nat;
  pending : list Timer
}.

Definition set_asYouType (x : _) (w : Widget) : Widget :=
  {| defaultCountryCode := defaultCountryCode w; mobileOnly := mobileOnly w; asYouType := x;
     hasFocus := hasFocus w; isOpen := isOpen w; isPristine := isPristine w;
     cleanup := cleanup w; innerText := innerText w; caret := caret w; active := active w;
     value := value w; validationMessage := validationMessage w; dispatched := dispatched w;
     flag := flag w; ariaExpanded := ariaExpanded w; items := items w;
     subscriptions := subscriptions w; released := released w; pending := pending w |}.
Definition set_hasFocus (x : _) (w : Widget) : Widget :=
  {| defaultCountryCode := defaultCountryCode w; mobileOnly := mobileOnly w;
     asYouType := asYouType w; hasFocus := x; isOpen := isOpen w; isPristine := isPristine w;
     cleanup := cleanup w; innerText := innerText w; caret := caret w; active := active w;
     value := value w; validationMessage := validationMessage w; dispatched := dispatched w;
     flag := flag w; ariaExpanded := ariaExpanded w; items := items w;
     subscriptions := subscriptions w; released := released w; pending := pending w |}.
Definition set_isOpen (x : _) (w : Widget) : Widget :=
  {| defaultCountryCode := defaultCountryCode w; mobileOnly := mobileOnly w;
     asYouType := asYouType w; hasFocus := hasFocus w; isOpen := x; isPristine := isPristine w;
     cleanup := cleanup w; innerText := innerText w; caret := caret w; active := active w;
     value := value w; validationMessage := validationMessage w; dispatched := dispatched w;
     flag := flag w; ariaExpanded := ariaExpanded w; items := items w;
     subscriptions := subscriptions w; released := released w; pending := pending w |}.
Definition set_isPristine (x : _) (w : Widget) : Widget :=
  {| defaultCountryCode := defaultCountryCode w; mobileOnly := mobileOnly w;
     asYouType := asYouType w; hasFocus := hasFocus w; isOpen := isOpen w; isPristine := x;
     cleanup := cleanup w; innerText := innerText w; caret := caret w; active := active w;
     value := value w; validationMessage := validationMessage w; dispatched := dispatched w;
     flag := flag w; ariaExpanded := ariaExpanded w; items := items w;
     subscriptions := subscriptions w; released := released w; pending := pending w |}.
Definition set_cleanup (x : _) (w : Widget) : Widget :=
  {| defaultCountryCode := defaultCountryCode w; mobileOnly := mobileOnly w;
     asYouType := asYouType w; hasFocus := hasFocus w; isOpen := isOpen w;
     isPristine := isPristine w; cleanup := x; innerText := innerText w; caret := caret w;
     active := active w; value := value w; validationMessage := validationMessage w;
     dispatched := dispatched w; flag := flag w; ariaExpanded := ariaExpanded w;
     items := items w; subscriptions := subscriptions w; released := released w;
     pending := pending w |}.
Definition set_innerText (x : _) (w : Widget) : Widget :=
  {| defaultCountryCode := defaultCountryCode w; mobileOnly := mobileOnly w;
     asYouType := asYouType w; hasFocus := hasFocus w; isOpen := isOpen w;
     isPristine := isPristine w; cleanup := cleanup w; innerText := x; caret := caret w;
     active := active w; value := value w; validationMessage := validationMessage w;
     dispatched := dispatched w; flag := flag w; ariaExpanded := ariaExpanded w;
     items := items w; subscriptions := subscriptions w; released := released w;
     pending := pending w |}.
Definition set_caret (x : _) (w : Widget) : Widget :=
  {| defaultCountryCode := defaultCountryCode w; mobileOnly := mobileOnly w;
     asYouType := asYouType w; hasFocus := hasFocus w; isOpen := isOpen w;
     isPristine := isPristine w; cleanup := cleanup w; innerText := innerText w; caret := x;
     active := active w; value := value w; validationMessage := validationMessage w;
     dispatched := dispatched w; flag := flag w; ariaExpanded := ariaExpanded w;
     items := items w; subscriptions := subscriptions w; released := released w;
     pending := pending w |}.
Definition set_active (x : _) (w : Widget) : Widget :=
  {| defaultCountryCode := defaultCountryCode w; mobileOnly := mobileOnly w;
     asYouType := asYouType w; hasFocus := hasFocus w; isOpen := isOpen w;
     isPristine := isPristine w; cleanup := cleanup w; innerText := innerText w;
     caret := caret w; active := x; value := value w; validationMessage := validationMessage w;
     dispatched := dispatched w; flag := flag w; ariaExpanded := ariaExpanded w;
     items := items w; subscriptions := subscriptions w; released := released w;
     pending := pending w |}.
Definition set_value (x : _) (w : Widget) : Widget :=
  {| defaultCountryCode := defaultCountryCode w; mobileOnly := mobileOnly w;
     asYouType := asYouType w; hasFocus := hasFocus w; isOpen := isOpen w;
     isPristine := isPristine w; cleanup := cleanup w; innerText := innerText w;
     caret := caret w; active := active w; value := x;
     validationMessage := validationMessage w; dispatched := dispatched w; flag := flag w;
     ariaExpanded := ariaExpanded w; items := items w; subscriptions := subscriptions w;
     released := released w; pending := pending w |}.
Definition set_validationMessage (x : _) (w : Widget) : Widget :=
  {| defaultCountryCode := defaultCountryCode w; mobileOnly := mobileOnly w;
     asYouType := asYouType w; hasFocus := hasFocus w; isOpen := isOpen w;
     isPristine := isPristine w; cleanup := cleanup w; innerText := innerText w;
     caret := caret w; active := active w; value := value w; validationMessage := x;
     dispatched := dispatched w; flag := flag w; ariaExpanded := ariaExpanded w;
     items := items w; subscriptions := subscriptions w; released := released w;
     pending := pending w |}.
Definition set_dispatched (x : _) (w : Widget) : Widget :=
  {| defaultCountryCode := defaultCountryCode w; mobileOnly := mobileOnly w;
     asYouType := asYouType w; hasFocus := hasFocus w; isOpen := isOpen w;
     isPristine := isPristine w; cleanup := cleanup w; innerText := innerText w;
     caret := caret w; active := active w; value := value w;
     validationMessage := validationMessage w; dispatched := x; flag := flag w;
     ariaExpanded := ariaExpanded w; items := items w; subscriptions := subscriptions w;
     released := released w; pending := pending w |}.
Definition set_flag (x : _) (w : Widget) : Widget :=
  {| defaultCountryCode := defaultCountryCode w; mobileOnly := mobileOnly w;
     asYouType := asYouType w; hasFocus := hasFocus w; isOpen := isOpen w;
     isPristine := isPristine w; cleanup := cleanup w; innerText := innerText w;
     caret := caret w; active := active w; value := value w;
     validationMessage := validationMessage w; dispatched := dispatched w; flag := x;
     ariaExpanded := ariaExpanded w; items := items w; subscriptions := subscriptions w;
     released := released w; pending := pending w |}.
Definition set_ariaExpanded (x : _) (w : Widget) : Widget :=
  {| defaultCountryCode := defaultCountryCode w; mobileOnly := mobileOnly w;
     asYouType := asYouType w; hasFocus := hasFocus w; isOpen := isOpen w;
     isPristine := isPristine w; cleanup := cleanup w; innerText := innerText w;
     caret := caret w; active := active w; value := value w;
     validationMessage := validationMessage w; dispatched := dispatched w; flag := flag w;
     ariaExpanded := x; items := items w; subscriptions := subscriptions w;
     released := released w; pending := pending w |}.
Definition set_items (x : _) (w : Widget) : Widget :=
  {| defaultCountryCode := defaultCountryCode w; mobileOnly := mobileOnly w;
     asYouType := asYouType w; hasFocus := hasFocus w; isOpen := isOpen w;
     isPristine := isPristine w; cleanup := cleanup w; innerText := innerText w;
     caret := caret w; active := active w; value := value w;
     validationMessage := validationMessage w; dispatched := dispatched w; flag := flag w;
     ariaExpanded := ariaExpanded w; items := x; subscriptions := subscriptions w;
     released := released w; pending := pending w |}.
Definition set_subscriptions (x : _) (w : Widget) : Widget :=
  {| defaultCountryCode := defaultCountryCode w; mobileOnly := mobileOnly w;
     asYouType := asYouType w; hasFocus := hasFocus w; isOpen := isOpen w;
     isPristine := isPristine w; cleanup := cleanup w; innerText := innerText w;
     caret := caret w; active := active w; value := value w;
     validationMessage := validationMessage w; dispatched := dispatched w; flag := flag w;
     ariaExpanded := ariaExpanded w; items := items w; subscriptions := x;
     released := released w; pending := pending w |}.
Definition set_released (x : _) (w : Widget) : Widget :=
  {| defaultCountryCode := defaultCountryCode w; mobileOnly := mobileOnly w;
     asYouType := asYouType w; hasFocus := hasFocus w; isOpen := isOpen w;
     isPristine := isPristine w; cleanup := cleanup w; innerText := innerText w;
     caret := caret w; active := active w; value := value w;
     validationMessage := validationMessage w; dispatched := dispatched w; flag := flag w;
     ariaExpanded := ariaExpanded w; items := items w; subscriptions := subscriptions w;
     released := x; pending := pending w |}.
Definition set_pending (x : _) (w : Widget) : Widget :=
  {| defaultCountryCode := defaultCountryCode w; mobileOnly := mobileOnly w;
     asYouType := asYouType w; hasFocus := hasFocus w; isOpen := isOpen w;
     isPristine := isPristine w; cleanup := cleanup w; innerText := innerText w;
     caret := caret w; active := active w; value := value w;
     validationMessage := validationMessage w; dispatched := dispatched w; flag := flag w;
     ariaExpanded := ariaExpanded w; items := items w; subscriptions := subscriptions w;
     released := released w; pending := x |}.

(** ** Small DOM operations *)

(** [inputElement.dispatchEvent(new Event(..))] *)
Definition dispatchEvent (e : HostEvent) (w : Widget) : Widget :=
  set_dispatched (e :: dispatched w) w.

(** [window.setTimeout(.., 0)] *)
Definition setTimeout (t : Timer) (w : Widget) : Widget :=
  set_pending (pending w ++ [t]) w.

(** [editField.innerText = text].  The old text node goes, and a range that
    sat in it is re-anchored at offset 0 of the field (DOM live ranges). *)
Definition setInnerText (text : string) (w : Widget) : Widget :=
  set_caret (const 0 <$> caret w) (set_innerText text w).

(** Lines 92-102.  [childNodes[0]] is missing exactly when the text is empty. *)
Definition setCaretToEnd (w : Widget) : Widget :=
  match innerText w with
  | EmptyString => w
  | text => set_caret (Some (String.length text)) w
  end.

(** Lines 82-90. *)
Definition handleFocus (w : Widget) : Widget :=
  set_hasFocus true (dispatchEvent EvFocus w).

(** [editField.focus()]: when focus moves to the field, the selection is
    put at its start and the focus event fires; otherwise nothing happens. *)
Definition focus (w : Widget) : Widget :=
  if active w then w else handleFocus (set_caret (Some 0) (set_active true w)).

(** Lines 278-284. *)
Definition decorateInputField (countryCode : option CountryCode) (w : Widget) : Widget :=
  if truthy countryCode then set_flag countryCode w else set_flag None w.

(** ** The picker's rows *)

Definition withSelected (b : bool) (li : Li) : Li :=
  {| countryName := countryName li; data_calling_code := data_calling_code li;
     data_country := data_country li; selected := b |}.

(** [querySelector('li[data-country].selected')]: first match in document order. *)
Definition querySelected (l : list Li) : option (nat * Li) :=
  list_find (fun li => selected li = true) l.

(** [querySelector(`[data-country="${country}"]`)] *)
Definition queryCountry (country : CountryCode) (l : list Li) : option (nat * Li) :=
  list_find (fun li => data_country li = country) l.

(** Lines 209-213. *)
Definition deselectAll (w : Widget) : Widget :=
  set_items (withSelected false <$> items w) w.

(** [element.classList.add('selected')] on row [i]. *)
Definition addSelected (i : nat) (w : Widget) : Widget :=
  set_items (alter (withSelected true) i (items w)) w.

(** Lines 148-152; [scrollIntoView] leaves the state alone. *)
Definition selectElement (i : nat) (w : Widget) : Widget :=
  addSelected i (deselectAll w).

(** [.previousElementSibling] / [.nextElementSibling] of row [i], and the
    [:last-child] / [:first-child] rows; rows are named by their index. *)
Definition previousElementSibling (i : nat) : option nat :=
  match i with O => None | S j => Some j end.

Definition nextElementSibling (l : list Li) (i : nat) : option nat :=
  if decide (S i < length l) then Some (S i) else None.

Definition lastChild (l : list Li) : option nat :=
  match length l with O => None | S n => Some n end.

Definition firstChild (l : list Li) : option nat :=
  match l with [] => None | _ => Some 0 end.

(** ** Opening and closing the picker *)

(** Lines 215-230. *)
Definition openInternationalSelector (w : Widget) : Widget :=
  let w := set_cleanup (Some (subscriptions w)) (set_subscriptions (S (subscriptions w)) w) in
  let w := set_ariaExpanded true w in
  let w := set_isOpen true w in
  let w := set_isPristine true w in
  let w := deselectAll w in
  let country := getCountry (asYouType w) in
  if truthy country then
    match queryCountry (default "" country) (items w) with
    | Some (i, _) => addSelected i w
    | None => w
    end
  else w.

(** Lines 232-236.  [this.cleanup?.()] calls whatever handle is stored. *)
Definition closeInternationalSelector (w : Widget) : Widget :=
  let w := set_isOpen false w in
  let w := set_ariaExpanded false w in
  match cleanup w with
  | Some id => set_released (id :: released w) w
  | None => w
  end.

(** Lines 238-247. *)
Definition setInternationalCode (countryCode : CountryCode)
    (callingCode : CountryCallingCode) (w : Widget) : Widget :=
  let w := decorateInputField (Some countryCode) w in
  let nationalNumber := default "" (nationalNumber <$> getNumber (asYouType w)) in
  let w := decorateInputField (Some countryCode) w in
  let w := setInnerText ("+" +:+ callingCode +:+ nationalNumber) w in
  let w := focus w in
  setTimeout CaretToEnd w.

(** ** The editing engine *)

(** Lines 251-260: the one-time step out of the pristine state.  Returns the
    text still to be fed to the formatter. *)
Definition seedInternational (phoneNumber : string) (w : Widget) : string * Widget :=
  if negb (truthy (defaultCountryCode w)) && isPristine w then
    let w := set_isPristine false w in
    if negb (startsWith phoneNumber "+") then
      let phoneNumber := if startsWith phoneNumber "0" then "" else phoneNumber in
      let '(f, shown) := input "+" (asYouType w) in
      (phoneNumber, setCaretToEnd (setInnerText shown (set_asYouType f w)))
    else (phoneNumber, w)
  else (phoneNumber, w).

(** Lines 261-265: the caret read from the selection, pushed one to the
    right when it sits at the end of the text currently in the field. *)
Definition caretPosition (w : Widget) : nat :=
  let position := default 0 (caret w) in
  if decide (String.length (innerText w) = position) then S position else position.

(** Lines 261-275.  With an empty formatted text the field has no text node
    and reading [textNode.length] raises a [TypeError]. *)
Definition reformat (phoneNumber : string) (w : Widget) : Outcome Widget :=
  let position := caretPosition w in
  let '(f, shown) := input phoneNumber (asYouType w) in
  let w := setInnerText shown (set_asYouType f w) in
  match shown with
  | EmptyString => Thrown w
  | _ =>
    let w := set_caret (Some (position `min` String.length shown)) w in
    let w := set_value (default "" (getNumberValue f)) w in
    let w := decorateInputField (getCountry f) w in
    Returned (dispatchEvent EvInput w)
  end.

(** Lines 249-276. *)
Definition updateInputField (phoneNumber : string) (w : Widget) : Outcome Widget :=
  let w := set_asYouType (reset (asYouType w)) w in
  let '(phoneNumber, w) := seedInternational phoneNumber w in
  reformat phoneNumber w.

(** Lines 104-112.  The browser has already put the edited text into the
    field when the [input] event fires. *)
Definition handleInput (w : Widget) : Outcome Widget :=
  match innerText w with
  | EmptyString => Returned (set_isPristine true w)
  | text => updateInputField text w
  end.

(** Lines 114-123. *)
Definition handleBlur (w : Widget) : Widget :=
  setTimeout BlurCheck w.

(** ** Pointer and keyboard *)

(** Where a click lands, as far as the walk up the ancestors can tell. *)
Inductive Target :=
  | OnOpener            (* the flag button or something inside it *)
  | OnItem (i : nat)    (* inside row [i] of the picker *)
  | OnSelector          (* inside the picker, on no row *)
  | Elsewhere.          (* anywhere else, the edit field included *)

(** Lines 125-145. *)
Definition handleClick (t : Target) (w : Widget) : Widget :=
  match t with
  | OnOpener => openInternationalSelector w
  | OnItem i =>
    match items w !! i with
    | Some li =>
      if truthy (Some (data_country li)) && truthy (Some (data_calling_code li)) then
        closeInternationalSelector
          (setInternationalCode (data_country li) (data_calling_code li) w)
      else closeInternationalSelector w
    | None => closeInternationalSelector w
    end
  | OnSelector | Elsewhere => closeInternationalSelector w
  end.

(** The keys of line 189. *)
Definition dialKeys : list string :=
  ["+"; "0"; "1"; "2"; "3"; "4"; "5"; "6"; "7"; "8"; "9"].

(** Lines 147-198, [key] being [event.key]. *)
Definition handleKeypress (key : string) (w : Widget) : Outcome Widget :=
  if negb (isOpen w) then Returned w
  else if decide (key = "Enter") then
    match querySelected (items w) with
    | Some (_, element) =>
      Returned (setInternationalCode (data_country element) (data_calling_code element)
                  (closeInternationalSelector w))
    | None => Returned w
    end
  else if decide (key = "Escape") then Returned (closeInternationalSelector w)
  else if decide (key = "ArrowUp") then
    let prev := querySelected (items w) ≫= (fun '(i, _) => previousElementSibling i) in
    let prev := match prev with Some i => Some i | None => lastChild (items w) end in
    Returned (match prev with Some i => selectElement i w | None => w end)
  else if decide (key = "ArrowDown") then
    let next := querySelected (items w) ≫= (fun '(i, _) => nextElementSibling (items w) i) in
    let next := match next with Some i => Some i | None => firstChild (items w) end in
    Returned (match next with Some i => selectElement i w | None => w end)
  else if decide (key ∈ dialKeys) then
    updateInputField key (focus (closeInternationalSelector w))
  else Returned w.

(** ** Validation *)

(** Lines 333-344: the verdict and the state with the message attached. *)
Definition checkValidity (w : Widget) : bool * Widget :=
  if isValid (asYouType w) then
    if mobileOnly w
       && negb (bool_decide (getNumber (asYouType w) ≫= getType = Some MOBILE)) then
      (false, set_validationMessage "Invalid mobile number" w)
    else (true, w)
  else (false, set_validationMessage "Invalid phone number" w).

(** ** Deferred work and the event loop *)

(** The body of each zero-delay callback: lines 244-246 and 115-122. *)
Definition fire (t : Timer) (w : Widget) : Widget :=
  match t with
  | CaretToEnd => setCaretToEnd w
  | BlurCheck => if hasFocus w then dispatchEvent EvBlur (set_hasFocus false w) else w
  end.

Definition runTimers (w : Widget) : Widget :=
  foldl (fun w t => fire t w) (set_pending [] w) (pending w).

(** What the browser can deliver to the listeners of lines 74-80. *)
Inductive Event :=
  | Edit (text : string) (position : option nat)
      (* the user changed the field's text: typing, deleting, pasting *)
  | Click (t : Target)
  | Key (key : string)
  | FocusIn
  | Blur
  | Tick.               (* the current turn is over: pending timeouts run *)

Definition dispatch (e : Event) (w : Widget) : Outcome Widget :=
  match e with
  | Edit text position => handleInput (set_caret position (set_innerText text w))
  | Click t => Returned (handleClick t w)
  | Key key => handleKeypress key w
  | FocusIn => Returned (focus w)
  | Blur => Returned (handleBlur (set_active false w))
  | Tick => Returned (runTimers w)
  end.

(** An exception that escapes a listener is reported; the page goes on. *)
Definition run (events : list Event) (w : Widget) : Widget :=
  foldl (fun w e => after (dispatch e w)) w events.

(** ** Construction *)

(** What the constructor reads from its surroundings: the region list and
    calling codes of libphonenumber-js, the translated region names, the
    collator of the document language, and whether the widget's style rules
    are in place or can be loaded (lines 45-47, 286-325). *)
Record Page := {
  getCountries : list CountryCode;
  countries : CountryCode -> option string;
  getCountryCallingCode : CountryCode -> CountryCallingCode;
  compare : string -> string -> Z;
  stylesAreInstalled : bool;
  stylesLoad : bool
}.

(** The host [<input>] as found: its value and the two attributes read. *)
Record Element := {
  element_value : string;
  default_country_code : option string;
  mobile_only : bool
}.

Definition Entry : Type := string * CountryCallingCode * CountryCode.

Fixpoint insertEntry (cmp : Entry -> Entry -> Z) (a : Entry) (l : list Entry) : list Entry :=
  match l with
  | [] => [a]
  | b :: r => if (cmp a b <=? 0)%Z then a :: b :: r else b :: insertEntry cmp a r
  end.

(** [Array.prototype.sort] is stable; so is this insertion sort. *)
Definition sortEntries (cmp : Entry -> Entry -> Z) (l : list Entry) : list Entry :=
  foldr (insertEntry cmp) [] l.

(** Lines 29-35. *)
Definition codeCountryMap (p : Page) : list Entry :=
  sortEntries (fun a b => compare p a.1.1 b.1.1)
    ((fun c => (default c (countries p c), getCountryCallingCode p c, c)) <$> getCountries p).

(** Lines 56-72, the rows only. *)
Definition createTextBox (entries : list Entry) : list Li :=
  (fun '(name, callingCode, countryCode) =>
     {| countryName := name; data_calling_code := callingCode;
        data_country := countryCode; selected := false |}) <$> entries.

(** Lines 36-37. *)
Definition defaultRegion (element : Element) : option CountryCode :=
  let countryCode := default_country_code element in
  if truthy countryCode then toUpperCase <$> countryCode else None.

(** Lines 27-54.  [None]: [transferStyles] raised, there is no widget. *)
Definition constructor (p : Page) (element : Element) : option Widget :=
  let defaultCountryCode := defaultRegion element in
  let w :=
    {| defaultCountryCode := defaultCountryCode; mobileOnly := mobile_only element;
       asYouType := create defaultCountryCode; hasFocus := false; isOpen := false;
       isPristine := true; cleanup := None; innerText := ""; caret := None;
       active := false; value := element_value element; validationMessage := "";
       dispatched := []; flag := None; ariaExpanded := false;
       items := createTextBox (codeCountryMap p); subscriptions := 0; released := [];
       pending := [] |} in
  if negb (stylesAreInstalled p) && negb (stylesLoad p) then None
  else
    match element_value element with
    | EmptyString => Some w
    | text =>
      let '(f, shown) := input text (asYouType w) in
      let w := setInnerText shown (set_asYouType f w) in
      let w := set_value (default text (getNumberValue f)) w in
      Some (decorateInputField (getCountry f) w)
    end.

(** Lines 350-361, [PhoneNumberElement.checkValidity].  [inherited] is the
    [checkValidity()] of [HTMLInputElement], which the browser decides from
    the input's value and its custom validity message (and from attributes
    that the widget never writes). *)
Definition elementCheckValidity (inherited : string -> string -> bool) (w : Widget)
    : bool * Widget :=
  if inherited (value w) (validationMessage w) then checkValidity w else (false, w).

End Field.

Arguments Widget F : clear implicits.

(** ** Style transfer

    Lines 286-325.  The widget's own style sheet is walked rule by rule; behind
    each of three selectors a rule with styles taken from the host input is
    inserted, and the walk steps over it. *)
Section Styles.

(** [StyleHelpers.extractStyles(inputElement, properties)], the input
    carrying the class [-focus-] or not; and [window.innerHeight]. *)
Variable extractStyles : bool -> list string -> string.
Variable innerHeight : nat.

(** A rule of the sheet: its [selectorText] (style rules only) and its text. *)
Record CSSRule := {
  selectorText : option string;
  cssText : string
}.

Definition doubleQuote : string := String (ascii_of_nat 34) "".

Definition attribute (name text : string) : string :=
  "[" +:+ name +:+ "=" +:+ doubleQuote +:+ text +:+ doubleQuote +:+ "]".

(** Line 15 and the three selectors of lines 299, 306 and 313. *)
Definition baseSelector : string := attribute "is" "django-phone-number".

Definition textboxSelector : string :=
  baseSelector +:+ " + " +:+ attribute "role" "textbox".

Definition focusSelector : string := textboxSelector +:+ ".focus".

Definition dialogSelector : string :=
  baseSelector +:+ " + " +:+ attribute "role" "textbox"
    +:+ attribute "aria-haspopup" "dialog" +:+ " + " +:+ attribute "role" "dialog".

(** What one turn of the [switch] does with a rule. *)
Inductive Transfer :=
  | Loaded                  (* the base selector: [loaded = true] *)
  | Insert (text : string)  (* [insertRule(text, ++index)] *)
  | Skip.

Definition transferRule (cssRule : CSSRule) : Transfer :=
  match selectorText cssRule with
  | None => Skip
  | Some selector =>
    if decide (selector = baseSelector) then Loaded
    else if decide (selector = textboxSelector) then
      Insert (selector +:+ "{"
        +:+ extractStyles false
              ["background-color"; "border"; "border-radius"; "color"; "outline";
               "height"; "line-height"; "padding"]
        +:+ "}")
    else if decide (selector = focusSelector) then
      Insert (selector +:+ "{"
        +:+ extractStyles true
              ["background-color"; "border"; "box-shadow"; "color"; "outline";
               "transition"]
        +:+ "}")
    else if decide (selector = dialogSelector) then
      Insert (selector +:+ "{"
        +:+ extractStyles false
              ["background-color"; "border-radius"; "color"; "line-height"; "padding"]
        +:+ " height:" +:+ pretty (innerHeight / 3) +:+ "px;")
    else Skip
  end.

(** The rule [insertRule] parses from [selector{...}]: the selector is the
    text in front of the first brace. *)
Fixpoint selectorOf (text : string) : string :=
  match text with
  | EmptyString => EmptyString
  | String c rest => if Ascii.eqb c "{" then EmptyString else String c (selectorOf rest)
  end.

Definition parseRule (text : string) : CSSRule :=
  {| selectorText := Some (selectorOf text); cssText := text |}.

(** [sheet.insertRule(text, index)]; an index behind the end is an
    [IndexSizeError].  The text is taken to parse as a rule. *)
Definition insertRule (text : string) (index : nat) (rules : list CSSRule)
    : option (list CSSRule) :=
  if decide (index <= length rules)
  then Some (take index rules ++ parseRule text :: drop index rules)%list
  else None.

(** How the loop of lines 292-321 can end. *)
Inductive Walk :=
  | Walked (rules : list CSSRule) (loaded : bool)
  | IndexSizeError
  | Unfinished.             (* the model's fuel ran out *)

Fixpoint walk (fuel : nat) (rules : list CSSRule) (index : nat) (loaded : bool) : Walk :=
  match rules !! index with
  | None => Walked rules loaded
  | Some cssRule =>
    match fuel with
    | O => Unfinished
    | S fuel =>
      match transferRule cssRule with
      | Loaded => walk fuel rules (S index) true
      | Insert text =>
        match insertRule text (S index) rules with
        | Some rules => walk fuel rules (S (S index)) loaded
        | None => IndexSizeError
        end
      | Skip => walk fuel rules (S index) loaded
      end
    end
  end.

(** How [transferStyles] can end: with the sheet as it then is, or by one of
    the two errors. *)
Inductive Styled :=
  | Transferred (sheet : option (list CSSRule))
  | CouldNotLoad (sheet : option (list CSSRule))
  | InsertFailed
  | StillWalking.

(** Lines 286-325; [sheet] is [declaredStyles.sheet].  Each turn of the loop
    moves [index] closer to the end of the sheet, so as many turns as the
    sheet has rules at the start are enough. *)
Definition transferStyles (sheet : option (list CSSRule)) : Styled :=
  match sheet with
  | None => CouldNotLoad None
  | Some rules =>
    match walk (length rules) rules 0 false with
    | Walked rules true => Transferred (Some rules)
    | Walked rules false => CouldNotLoad (Some rules)
    | IndexSizeError => InsertFailed
    | Unfinished => StillWalking
    end
  end.

(** The sheet after the walk, rule by rule. *)
Fixpoint withExtras (rules : list CSSRule) : list CSSRule :=
  match rules with
  | [] => []
  | cssRule :: rest =>
    match transferRule cssRule with
    | Insert text => cssRule :: parseRule text :: withExtras rest
    | _ => cssRule :: withExtras rest
    end
  end.

Definition isBase (cssRule : CSSRule) : bool :=
  bool_decide (selectorText cssRule = Some baseSelector).

End Styles.

(** ** A small numbering plan

    A concrete formatter for the examples: three regions, international
    numbers shown as [+CC NN NNNNNNN], nine national digits make a number
    valid, a national number starting with 7 is a mobile one. *)
Module Demo.

Definition plan : list (CountryCallingCode * CountryCode) :=
  [("41", "CH"); ("49", "DE"); ("1", "US")].

(** What was typed since the last reset: the digits, and whether a "+" led. *)
Record Typed := {
  region : option CountryCode;
  international : bool;
  digits : string
}.

Definition isDigit (c : ascii) : bool :=
  let n := nat_of_ascii c in (48 <=? n)%nat && (n <=? 57)%nat.

Definition keep (c : ascii) (t : Typed) : Typed :=
  if isDigit c then
    {| region := region t; international := international t;
       digits := digits t +:+ String c "" |}
  else if Ascii.eqb c "+" && negb (international t) && String.eqb (digits t) "" then
    {| region := region t; international := true; digits := "" |}
  else t.

Fixpoint feed (text : string) (t : Typed) : Typed :=
  match text with
  | EmptyString => t
  | String c rest => feed rest (keep c t)
  end.

Definition dropLength (n : nat) (s : string) : string :=
  String.substring n (String.length s - n) s.

Definition trunk (s : string) : string :=
  if startsWith s "0" then dropLength 1 s else s.

(** Region, calling code and national significant number, once known. *)
Definition parse (t : Typed) : option (CountryCode * CountryCallingCode * string) :=
  if international t then
    (fun '(cc, c) => (c, cc, dropLength (String.length cc) (digits t)))
      <$> (snd <$> list_find (fun '(cc, _) => startsWith (digits t) cc = true) plan)
  else
    region t ≫= fun c =>
    (fun '(cc, _) => (c, cc, trunk (digits t)))
      <$> (snd <$> list_find (fun '(_, c') => c' = c) plan).

Definition group (nsn : string) : string :=
  match nsn with
  | EmptyString => ""
  | _ =>
    " " +:+ String.substring 0 2 nsn
        +:+ (if decide (2 < String.length nsn) then " " +:+ dropLength 2 nsn else "")
  end.

Definition format (t : Typed) : string :=
  if international t then
    match parse t with
    | Some (_, cc, nsn) => "+" +:+ cc +:+ group nsn
    | None => "+" +:+ digits t
    end
  else digits t.

Definition complete (t : Typed) : bool :=
  match parse t with
  | Some (_, _, nsn) => bool_decide (String.length nsn = 9)
  | None => false
  end.

Definition number (t : Typed) : option PhoneNumber :=
  match parse t with
  | Some (_, _, (String _ _) as nsn) =>
    Some {| nationalNumber := nsn;
            getType := if complete t
                       then Some (if startsWith nsn "7" then MOBILE else FIXED_LINE)
                       else None |}
  | _ => None
  end.

Definition e164 (t : Typed) : option string :=
  match parse t with
  | Some (_, cc, (String _ _) as nsn) => Some ("+" +:+ cc +:+ nsn)
  | _ => None
  end.

Global Instance formatter : AsYouType Typed := {|
  create := fun c => {| region := c; international := false; digits := "" |};
  reset := fun t => {| region := region t; international := false; digits := "" |};
  input := fun text t => let t' := feed text t in (t', format t');
  getNumberValue := e164;
  getNumber := number;
  getCountry := fun t => (fun x => x.1.1) <$> parse t;
  isValid := complete
|}.

Definition page : Page := {|
  getCountries := ["CH"; "DE"; "US"];
  countries := fun c =>
    if String.eqb c "CH" then Some "Switzerland"
    else if String.eqb c "DE" then Some "Germany"
    else if String.eqb c "US" then Some "United States" else None;
  getCountryCallingCode := fun c =>
    default "" (fst <$> (snd <$> list_find (fun '(_, c') => c' = c) plan));
  compare := fun a b => if String.ltb a b then (-1)%Z else if String.eqb a b then 0%Z else 1%Z;
  stylesAreInstalled := true;
  stylesLoad := true
|}.

(** An empty host input without attributes. *)
Definition blank : Element :=
  {| element_value := ""; default_country_code := None; mobile_only := false |}.

(** The widget on [page] for [blank]: no default region, nothing typed yet. *)
Definition fresh : Widget Typed :=
  {| defaultCountryCode := None; mobileOnly := false;
     asYouType := create None; hasFocus := false; isOpen := false;
     isPristine := true; cleanup := None; innerText := ""; caret := None;
     active := false; value := ""; validationMessage := "";
     dispatched := []; flag := None; ariaExpanded := false;
     items := createTextBox (codeCountryMap page);
     subscriptions := 0; released := []; pending := [] |}.

(** *** States the examples start from *)

(** The field shows [+41 79]; nothing else has happened. *)
Definition typed : Widget Typed := run [Edit "+4179" (Some 5)] fresh.

(** The field shows [+41 79] with the caret behind it; the user types [1]. *)
Definition dialling : Widget Typed :=
  set_caret (Some 7) (set_innerText "+41 791" (run [Edit "+4179" (Some 5)] fresh)).

(** A mobile-only host input that arrives holding a German landline. *)
Definition mobiles : Element :=
  {| element_value := "+49 30 1234567"; default_country_code := None;
     mobile_only := true |}.

(** A host input that arrives holding [abc]. *)
Definition lettered : Element :=
  {| element_value := "abc"; default_country_code := None; mobile_only := false |}.

(** The picker of the fresh widget, opened by a click on the flag button. *)
Definition opened : Widget Typed := run [Click OnOpener] fresh.

(** A German fixed-line number is in the field; the picker is open and the
    highlight has been moved to Switzerland. *)
Definition choosing : Widget Typed :=
  run [Edit "+49301234567" (Some 12); Click OnOpener; Key "ArrowDown"] fresh.


End Demo.

(** ** Vocabulary of the statements *)

Section Vocabulary.

Context {F : Type} `{AsYouType F}.

(** The row the picker highlights: the index of the first selected one. *)
Definition highlighted (w : Widget F) : option nat :=
  fst <$> querySelected (items w).


(** [closes w e]: event [e] takes the open picker of [w] to Closed: Escape,
    a click anywhere but on the opener (a row included), Enter on a
    highlighted row, or one of the dial keys. *)
Inductive closes (w : Widget F) : Event -> Prop :=
  | closes_escape : closes w (Key "Escape")
  | closes_click t : t <> OnOpener -> closes w (Click t)
  | closes_enter i li : querySelected (items w) = Some (i, li) -> closes w (Key "Enter")
  | closes_dial key : key ∈ dialKeys -> closes w (Key key).

(** The row ArrowDown and ArrowUp lead to in a picker of [n] rows, from the
    highlighted row [here]; [None] when there is no row at all. *)
Definition rowAfter (n : nat) (here : option nat) : option nat :=
  match n with
  | O => None
  | S _ => Some (from_option (fun i => if decide (S i < n) then S i else 0) 0 here)
  end.

Definition rowBefore (n : nat) (here : option nat) : option nat :=
  match n with
  | O => None
  | S last => Some (match here with Some (S i) => i | _ => last end)
  end.

(** What a pristine field without default region feeds the formatter, after
    its reset, for the raw text [text]. *)
Definition pristineFeed (text : string) (f : F) : F * string :=
  if startsWith text "+" then input text (reset f)
  else input (if startsWith text "0" then "" else text) (input "+" (reset f)).1.

End Vocabulary.

(** ** Steps and invariants *)

Global Instance HostEvent_eq_dec : EqDecision HostEvent.
Proof. solve_decision. Defined.

Global Instance Target_eq_dec : EqDecision Target.
Proof. solve_decision. Defined.

Global Instance Event_eq_dec : EqDecision Event.
Proof. solve_decision. Defined.

Section Invariants.

Context {F : Type} `{AsYouType F}.

(** The mutations the listeners are made of.  Every event is a short chain
    of them (see [dispatch_moves]). *)
Inductive moves (w : Widget F) : Widget F -> Prop :=
  | moves_browser text position : moves w (set_caret position (set_innerText text w))
  | moves_pristine : moves w (set_isPristine true w)
  | moves_update text : moves w (after (updateInputField text w))
  | moves_open : moves w (openInternationalSelector w)
  | moves_close : moves w (closeInternationalSelector w)
  | moves_commit countryCode callingCode :
      moves w (setInternationalCode countryCode callingCode w)
  | moves_select i : moves w (selectElement i w)
  | moves_focus : moves w (focus w)
  | moves_blur : moves w (handleBlur (set_active false w))
  | moves_drain : moves w (set_pending [] w)
  | moves_fire t : moves w (fire t w).

(** The rows without their highlight: the catalog. *)
Definition catalog (w : Widget F) : list Li :=
  withSelected false <$> items w.

(** The rows carrying the class [selected]. *)
Definition selectedRows (w : Widget F) : list Li :=
  filter (fun li => selected li = true) (items w).

(** The stored cleanup is the one of the latest [autoUpdate] call, every
    release names a subscription that was acquired, and an open picker has
    a subscription. *)
Definition subscribed (w : Widget F) : Prop :=
  cleanup w = match subscriptions w with O => None | S latest => Some latest end
  /\ Forall (fun id => id < subscriptions w) (released w)
  /\ (isOpen w = true -> 0 < subscriptions w).

(** How often an event went out to the host input. *)
Definition sent (e : HostEvent) (w : Widget F) : nat :=
  length (filter (fun e' => e' = e) (dispatched w)).

(** Every blur sent has a focus sent before it, and one more focus is out
    while [hasFocus] is set. *)
Definition focusAccounted (w : Widget F) : Prop :=
  sent EvBlur w + (if hasFocus w then 1 else 0) <= sent EvFocus w.

(** The last call of the formatter in [updateInputField] for the raw text
    [text]: after the reset and the pristine step. *)
Definition lastFeed (text : string) (w : Widget F) : F * string :=
  let seeded := seedInternational text (set_asYouType (reset (asYouType w)) w) in
  input seeded.1 (asYouType seeded.2).

End Invariants.

(** * Properties *)

Import Demo.

(** Membership of a concrete key in [dialKeys]. *)
Ltac dial_key := apply list_elem_of_In; cbn; tauto.

Example constructor_blank : constructor page blank = Some fresh.
Proof. reflexivity. Qed.

Example rows_sorted_by_name :
  data_country <$> items fresh = ["DE"; "CH"; "US"].
Proof. reflexivity. Qed.

Example swiss_mobile :
  let w := run [Edit "+41791234567" (Some 12)] fresh in
  innerText w = "+41 79 1234567" /\ value w = "+41791234567" /\ flag w = Some "CH"
  /\ (checkValidity w).1 = true.
Proof. vm_compute. done. Qed.

(** ** Validation *)

Section Validation.

Context {F : Type} `{AsYouType F}.

(** C4.  [checkValidity] answers [true] exactly when the formatter reports a
    valid number and, under the mobile-only flag, the number's type is
    [MOBILE].  A [false] comes with the mobile message when the number is
    valid and with the generic one otherwise; a [true] changes nothing.  The
    function is total: nothing is raised. *)
Theorem checkValidity_verdict (w : Widget F) :
  ((checkValidity w).1 = true <->
     isValid (asYouType w) = true
     /\ (mobileOnly w = true -> getNumber (asYouType w) ≫= getType = Some MOBILE))
  /\ (checkValidity w).2 =
       (if (checkValidity w).1 then w
        else set_validationMessage
               (if isValid (asYouType w) then "Invalid mobile number"
                else "Invalid phone number") w).
Proof.
  unfold checkValidity.
  destruct (isValid (asYouType w)) eqn:Hvalid; cbn.
  - destruct (mobileOnly w) eqn:Hmobile; cbn.
    + case_bool_decide as Htype; cbn.
      * split; [|done]. split; [by auto|done].
      * split; [|done]. split; [done|]. intros [_ Hm]. by specialize (Hm eq_refl).
    + split; [|done]. split; [|done]. intros _. by split.
  - split; [|done]. split; [done|]. by intros [? _].
Qed.

End Validation.

Example fixed_line_rejected_when_mobile_only :
  exists w,
    constructor page mobiles = Some w
    /\ value w = "+49301234567" /\ innerText w = "+49 30 1234567"
    /\ isValid (asYouType w) = true
    /\ (checkValidity w).1 = false
    /\ validationMessage (checkValidity w).2 = "Invalid mobile number".
Proof. eexists. split; [reflexivity|]. vm_compute. done. Qed.

(** ** The editing engine *)

Section Engine.

Context {F : Type} `{AsYouType F}.

Implicit Types w : Widget F.

(** What [reformat] does to the formatter and the text, raised or not. *)
Lemma reformat_feeds text w :
  asYouType (after (reformat text w)) = (input text (asYouType w)).1
  /\ innerText (after (reformat text w)) = (input text (asYouType w)).2
  /\ isPristine (after (reformat text w)) = isPristine w
  /\ isOpen (after (reformat text w)) = isOpen w.
Proof.
  unfold reformat. destruct (input text (asYouType w)) as [f shown].
  destruct shown; cbn; unfold decorateInputField; by repeat case_match.
Qed.

(** [reformat] returns exactly when the formatter shows something. *)
Lemma reformat_returns text w :
  returned (reformat text w) = negb (String.eqb (input text (asYouType w)).2 "").
Proof.
  unfold reformat. destruct (input text (asYouType w)) as [f shown].
  by destruct shown.
Qed.

(** The value written to the host input by an edit that returns. *)
Lemma reformat_value text w w' :
  reformat text w = Returned w' ->
  value w' = default "" (getNumberValue (asYouType w')).
Proof.
  unfold reformat. destruct (input text (asYouType w)) as [f shown].
  destruct shown; [done|]. intros [= <-].
  unfold decorateInputField. by case_match.
Qed.

Lemma updateInputField_value text w w' :
  updateInputField text w = Returned w' ->
  value w' = default "" (getNumberValue (asYouType w')).
Proof.
  unfold updateInputField.
  destruct (seedInternational _ _) as [text' seeded]. apply reformat_value.
Qed.

(** Picker bookkeeping is out of the engine's reach. *)
Lemma updateInputField_frame text w :
  let w' := after (updateInputField text w) in
  isOpen w' = isOpen w /\ cleanup w' = cleanup w /\ released w' = released w
  /\ subscriptions w' = subscriptions w /\ items w' = items w /\ pending w' = pending w.
Proof.
  unfold updateInputField, seedInternational, reformat, setCaretToEnd.
  unfold decorateInputField. cbn. by repeat (case_match; simplify_eq/=).
Qed.

Lemma setCaretToEnd_asYouType w : asYouType (setCaretToEnd w) = asYouType w.
Proof. unfold setCaretToEnd. by case_match. Qed.

Lemma setCaretToEnd_isPristine w : isPristine (setCaretToEnd w) = isPristine w.
Proof. unfold setCaretToEnd. by case_match. Qed.


Lemma decorateInputField_innerText country w :
  innerText (decorateInputField country w) = innerText w.
Proof. unfold decorateInputField. by case_match. Qed.

Lemma decorateInputField_caret country w :
  caret (decorateInputField country w) = caret w.
Proof. unfold decorateInputField. by case_match. Qed.

Lemma startsWith_cons c rest : startsWith (String c rest) (String c "") = true.
Proof.
  unfold startsWith. cbn. destruct (ascii_dec c c); [|done]. by destruct rest.
Qed.

(** The pristine step when it fires (lines 252-259). *)
Lemma seedInternational_pristine text w :
  truthy (defaultCountryCode w) = false -> isPristine w = true ->
  startsWith text "+" = false ->
  seedInternational text w =
    ((if startsWith text "0" then "" else text),
     setCaretToEnd
       (setInnerText (input "+" (asYouType w)).2
          (set_asYouType (input "+" (asYouType w)).1 (set_isPristine false w)))).
Proof.
  intros Hd Hp Hplus. unfold seedInternational. rewrite Hd, Hp, Hplus. cbn.
  by destruct (input "+" (asYouType w)).
Qed.

(** The pristine step when the text already starts with "+": only the flag
    is cleared. *)
Lemma seedInternational_plus text w :
  truthy (defaultCountryCode w) = false -> isPristine w = true ->
  startsWith text "+" = true ->
  seedInternational text w = (text, set_isPristine false w).
Proof.
  intros Hd Hp Hplus. unfold seedInternational. by rewrite Hd, Hp, Hplus.
Qed.

(** The pristine step when it does not apply: a default region is
    configured or the field is not pristine. *)
Lemma seedInternational_skip text w :
  truthy (defaultCountryCode w) = true \/ isPristine w = false ->
  seedInternational text w = (text, w).
Proof.
  unfold seedInternational. intros [-> | ->]; [done|].
  by rewrite andb_false_r.
Qed.

(** In a pristine field without default region, a raw text with a leading
    "0" is handled as the lone "0": whatever follows it is not fed. *)
Lemma leading_zero_discards_text rest w :
  truthy (defaultCountryCode w) = false -> isPristine w = true ->
  updateInputField (String "0" rest) w = updateInputField "0" w.
Proof.
  intros Hd Hp. unfold updateInputField.
  rewrite !seedInternational_pristine by done.
  by rewrite !startsWith_cons.
Qed.

(** Every edit of a pristine field without default region feeds the
    formatter [pristineFeed] and clears the flag. *)
Lemma updateInputField_pristine text w :
  truthy (defaultCountryCode w) = false -> isPristine w = true ->
  let w' := after (updateInputField text w) in
  asYouType w' = (pristineFeed text (asYouType w)).1
  /\ innerText w' = (pristineFeed text (asYouType w)).2
  /\ isPristine w' = false.
Proof.
  intros Hd Hp. unfold updateInputField, pristineFeed.
  destruct (startsWith text "+") eqn:Hplus.
  - rewrite seedInternational_plus by done.
    by destruct (reformat_feeds text
      (set_isPristine false (set_asYouType (reset (asYouType w)) w))) as (-> & -> & -> & _).
  - rewrite seedInternational_pristine by done.
    match goal with |- context [reformat ?t ?v] =>
      destruct (reformat_feeds t v) as (-> & -> & -> & _) end.
    by rewrite setCaretToEnd_asYouType, setCaretToEnd_isPristine.
Qed.

(** An edit of a field that is not pristine, or has a default region, feeds
    the raw text as it is. *)
Lemma updateInputField_plain text w :
  truthy (defaultCountryCode w) = true \/ isPristine w = false ->
  let w' := after (updateInputField text w) in
  asYouType w' = (input text (reset (asYouType w))).1
  /\ innerText w' = (input text (reset (asYouType w))).2.
Proof.
  intros Hskip. unfold updateInputField.
  rewrite seedInternational_skip by done.
  by destruct (reformat_feeds text (set_asYouType (reset (asYouType w)) w))
    as (-> & -> & _).
Qed.

(** Clearing the field runs one assignment (lines 106-107). *)
Lemma handleInput_empty position w :
  dispatch (Edit "" position) w
  = Returned (set_isPristine true (set_caret position (set_innerText "" w))).
Proof. done. Qed.

End Engine.

(** C1.  A pristine field without default region receives the raw text
    [0123456789] (pasted, say).  Line 255 replaces the whole text by the empty
    string, so the formatter is fed "+" and nothing else: the field shows "+"
    and the host value is empty, while the raw text [+123456789] gives
    [+1 23 456789] and the host value [+123456789]. *)
Theorem leading_zero_paste_loses_digits :
  let pasted := run [Edit "0123456789" (Some 10)] fresh in
  let dialled := run [Edit "+123456789" (Some 10)] fresh in
  innerText pasted = "+" /\ value pasted = "" /\ digits (asYouType pasted) = ""
  /\ isPristine pasted = false
  /\ pasted = run [Edit "0" (Some 10)] fresh
  /\ innerText dialled = "+1 23 456789" /\ value dialled = "+123456789".
Proof. vm_compute. done. Qed.

(** C3.  A complete number is typed and the field is then emptied.  The
    pristine flag is set again and the field is empty, yet the host input
    still holds the number, the formatter still reports its region and its
    validity, and the flag still shows: nothing but [isPristine] was reset. *)
Theorem clearing_keeps_host_value :
  let typed := run [Edit "+41791234567" (Some 12)] fresh in
  let cleared := run [Edit "" (Some 0)] typed in
  innerText cleared = "" /\ isPristine cleared = true
  /\ value cleared = "+41791234567"
  /\ getCountry (asYouType cleared) = Some "CH" /\ flag cleared = Some "CH"
  /\ dispatched cleared = dispatched typed
  /\ (checkValidity cleared).1 = true.
Proof. vm_compute. done. Qed.

(** ** The caret *)

Section Caret.

Context {F : Type} `{AsYouType F}.

Implicit Types w : Widget F.

(** C2, as the code has it.  Take the field as it is when line 261 is
    reached: [seeded], after the formatter's reset and the pristine step.
    If the formatter shows a non-empty text for the edit, the edit returns
    with that text in the field and the caret at
    [min (S before) (length shown)] when it sat at the end of the text
    ([offset = before]), and at [min offset (length shown)] otherwise.  So a
    caret at the end stays at the end exactly when the new text is at most
    one character longer than the old one. *)
Theorem caret_after_edit text w :
  let seeded := seedInternational text (set_asYouType (reset (asYouType w)) w) in
  let shown := (input seeded.1 (asYouType seeded.2)).2 in
  let before := String.length (innerText seeded.2) in
  let offset := default 0 (caret seeded.2) in
  shown <> "" ->
  exists w',
    updateInputField text w = Returned w'
    /\ innerText w' = shown
    /\ caret w' = Some (if decide (offset = before)
                        then S before `min` String.length shown
                        else offset `min` String.length shown)
    /\ (offset = before ->
        (caret w' = Some (String.length shown) <-> String.length shown <= S before)).
Proof.
  cbn zeta. unfold updateInputField.
  destruct (seedInternational _ _) as [text' seeded]. cbn [fst snd].
  unfold reformat, caretPosition.
  destruct (input text' (asYouType seeded)) as [f shown]. cbn [fst snd].
  intros Hshown. destruct shown as [|c shown]; [done|].
  eexists. split; [done|]. cbn.
  rewrite decorateInputField_innerText, decorateInputField_caret. cbn.
  split; [done|]. split.
  - repeat case_decide; try done; f_equal; lia.
  - intros ->. rewrite decide_True by done. split.
    + intros [= Hmin]. lia.
    + intros Hle. f_equal. lia.
Qed.

(** When the pristine step does not fire, the text and the caret that line
    261 finds are the ones the event left in the field. *)
Lemma seedInternational_leaves_field text w :
  truthy (defaultCountryCode w) = true \/ isPristine w = false
  \/ startsWith text "+" = true ->
  let seeded := seedInternational text w in
  seeded.1 = text /\ innerText seeded.2 = innerText w /\ caret seeded.2 = caret w.
Proof.
  unfold seedInternational. intros Hcase.
  destruct (negb (truthy (defaultCountryCode w)) && isPristine w) eqn:Hgate; [|done].
  apply andb_true_iff in Hgate as [Hd%negb_true_iff Hp].
  destruct Hcase as [?|[?|Hplus]]; [congruence..|]. by rewrite Hplus.
Qed.

End Caret.

Lemma caret_after_edit_witness :
  exists w',
    updateInputField "+41 791" dialling = Returned w'
    /\ innerText w' = "+41 79 1" /\ caret w' = Some 8.
Proof.
  destruct (caret_after_edit "+41 791" dialling) as (w' & Hrun & Htext & Hcaret & _).
  - vm_compute. discriminate.
  - exists w'. split; [exact Hrun|]. split; [exact Htext | exact Hcaret].
Defined.

(** C2, as the specification has it.  The number [+41791234567] is pasted into the
    empty field, the caret behind it at offset 12.  Formatting inserts two
    separators; the caret ends at offset 13 of 14, in front of the last
    digit and not at the end. *)
Lemma caret_not_pinned_to_end :
  let w := after (dispatch (Edit "+41791234567" (Some 12)) fresh) in
  innerText w = "+41 79 1234567"
  /\ caret w = Some 13
  /\ caret w <> Some (String.length (innerText w)).
Proof. vm_compute. split_and!; done. Qed.

(** ** Construction *)

Section Construction.

Context {F : Type} `{AsYouType F}.

(** At construction a non-empty text for which the formatter has no
    canonical number stays in the host input (line 51). *)
Lemma constructor_keeps_raw_value (p : Page) (element : Element) :
  element_value element <> "" ->
  stylesAreInstalled p || stylesLoad p = true ->
  getNumberValue (input (element_value element) (create (defaultRegion element))).1 = None ->
  exists w : Widget F,
    constructor p element = Some w
    /\ value w = element_value element
    /\ asYouType w = (input (element_value element) (create (defaultRegion element))).1.
Proof.
  intros Hvalue Hstyles Hnone. unfold constructor.
  replace (negb (stylesAreInstalled p) && negb (stylesLoad p)) with false
    by (by destruct (stylesAreInstalled p), (stylesLoad p)).
  destruct (element_value element) as [|c text] eqn:Htext; [done|]. cbn.
  destruct (input (String c text) (create (defaultRegion element))) as [f shown].
  cbn in Hnone. eexists. split; [done|].
  unfold decorateInputField. rewrite Hnone. by case_match.
Qed.

(** An edit for which the formatter shows something and has no canonical
    number returns with the empty string in the host input (line 273). *)
Lemma edit_without_number_clears_value text (w : Widget F) :
  (lastFeed text w).2 <> "" -> getNumberValue (lastFeed text w).1 = None ->
  exists w', updateInputField text w = Returned w' /\ value w' = "".
Proof.
  unfold lastFeed, updateInputField.
  destruct (seedInternational _ _) as [text' seeded]. cbn [fst snd].
  unfold reformat. destruct (input text' (asYouType seeded)) as [f shown].
  cbn [fst snd]. intros Hshown Hnone. destruct shown as [|c shown]; [done|].
  eexists. split; [done|]. unfold decorateInputField. rewrite Hnone.
  by case_match.
Qed.

End Construction.

(** C10.  The field shows [+41 79] and the host input holds [+4179]; the
    text is replaced by [abc].  The formatter shows nothing and has no
    canonical number, the edit raises at line 269 and line 273 is not
    reached: the host input still holds [+4179], not the empty string.  The
    same text met at construction stays in the host input, as line 51 has
    it, and an edit that leaves the lone "+" does write the empty string. *)
Theorem raising_edit_keeps_stale_value :
  let lettered' := dispatch (Edit "abc" (Some 3)) typed in
  let signed := dispatch (Edit "+" (Some 1)) typed in
  value typed = "+4179"
  /\ returned lettered' = false
  /\ getNumberValue (asYouType (after lettered')) = None
  /\ value (after lettered') = "+4179"
  /\ (value <$> constructor page lettered) = Some "abc"
  /\ returned signed = true
  /\ getNumberValue (asYouType (after signed)) = None
  /\ value (after signed) = "".
Proof. vm_compute. done. Qed.

Example constructor_keeps_letters :
  exists w : Widget Typed,
    constructor page lettered = Some w /\ value w = "abc"
    /\ asYouType w = (input "abc" (create None)).1.
Proof.
  apply (constructor_keeps_raw_value page lettered);
    [discriminate | reflexivity | reflexivity].
Qed.

(** Letters typed behind a complete number leave its value in the host
    input; the lone "+" left in the field empties it. *)
Example edit_writes_empty_value :
  let typed := run [Edit "+41791234567" (Some 12)] fresh in
  let edited := run [Edit "+41 79 1234567abc" (Some 17)] typed in
  let emptied := run [Edit "+" (Some 1)] typed in
  value typed = "+41791234567" /\ value edited = "+41791234567"
  /\ getNumberValue (asYouType emptied) = None /\ value emptied = "".
Proof. vm_compute. done. Qed.

(** ** The picker: moving the highlight *)

Section Highlight.

Context {F : Type} `{AsYouType F}.

Implicit Types w : Widget F.

Lemma querySelected_lt (l : list Li) i li :
  querySelected l = Some (i, li) -> i < length l.
Proof.
  intros (Hi & _)%list_find_Some. by eapply lookup_lt_Some.
Qed.

(** Deselecting all rows and selecting row [i] leaves [i] the first, and
    only, selected row. *)
Lemma querySelected_select (l : list Li) i li :
  l !! i = Some li ->
  querySelected (alter (withSelected true) i (withSelected false <$> l))
  = Some (i, withSelected true (withSelected false li)).
Proof.
  intros Hli. apply list_find_Some. split_and!.
  - by rewrite list_lookup_alter_eq, list_lookup_fmap, Hli.
  - done.
  - intros j y Hj Hlt. rewrite list_lookup_alter_ne in Hj by lia.
    apply list_lookup_fmap_Some in Hj as (z & -> & _). done.
Qed.

Lemma highlighted_selectElement i w :
  i < length (items w) -> highlighted (selectElement i w) = Some i.
Proof.
  intros Hi. destruct (lookup_lt_is_Some_2 (items w) i Hi) as [li Hli].
  unfold highlighted.
  change (items (selectElement i w))
    with (alter (withSelected true) i (withSelected false <$> items w)).
  by rewrite (querySelected_select _ _ _ Hli).
Qed.

Lemma selectElement_frame i w :
  length (items (selectElement i w)) = length (items w)
  /\ isOpen (selectElement i w) = isOpen w.
Proof.
  unfold selectElement, addSelected, deselectAll. cbn.
  by rewrite length_alter, length_fmap.
Qed.

(** The two arrow handlers, spelled out. *)
Lemma handleKeypress_ArrowDown w :
  isOpen w = true ->
  handleKeypress "ArrowDown" w =
    Returned (from_option (fun i => selectElement i w) w
                (rowAfter (length (items w)) (highlighted w))).
Proof.
  intros Hopen. unfold handleKeypress, highlighted, rowAfter. rewrite Hopen. cbn.
  f_equal. destruct (querySelected (items w)) as [[i li]|] eqn:Hsel; cbn.
  - apply querySelected_lt in Hsel.
    destruct (items w) as [|first rest] eqn:Hitems; [cbn in Hsel; lia|].
    unfold nextElementSibling. cbn [length firstChild].
    by case_decide.
  - by destruct (items w).
Qed.

Lemma handleKeypress_ArrowUp w :
  isOpen w = true ->
  handleKeypress "ArrowUp" w =
    Returned (from_option (fun i => selectElement i w) w
                (rowBefore (length (items w)) (highlighted w))).
Proof.
  intros Hopen. unfold handleKeypress, highlighted, rowBefore, lastChild.
  rewrite Hopen. cbn. f_equal.
  destruct (querySelected (items w)) as [[i li]|] eqn:Hsel; cbn.
  - apply querySelected_lt in Hsel.
    destruct (length (items w)) as [|last]; [lia|].
    by destruct i.
  - by destruct (length (items w)).
Qed.

Lemma rowAfter_lt n here j : rowAfter n here = Some j -> j < n.
Proof.
  unfold rowAfter. destruct n; [done|]. intros [= <-].
  destruct here as [i|]; cbn; [case_decide|]; lia.
Qed.

Lemma rowBefore_lt n here j :
  from_option (fun i => i < n) True here -> rowBefore n here = Some j -> j < n.
Proof.
  unfold rowBefore. destruct n; [done|]. intros Hhere [= <-].
  destruct here as [[|i]|]; cbn in *; lia.
Qed.

(** After the last row comes the first, before the first the last. *)
Lemma rowAfter_last n : rowAfter (S n) (Some n) = Some 0.
Proof. unfold rowAfter. cbn. case_decide; [lia|done]. Qed.

Lemma rowBefore_first n : rowBefore (S n) (Some 0) = Some n.
Proof. done. Qed.

Lemma rowAfter_mod n k :
  0 < n -> rowAfter n (Some (k mod n)) = Some (S k mod n).
Proof.
  intros Hn. unfold rowAfter. destruct n as [|m]; [lia|]. cbn [from_option]. f_equal.
  pose proof (Nat.div_mod_eq k (S m)) as Hk.
  pose proof (Nat.mod_upper_bound k (S m) ltac:(lia)) as Hr.
  case_decide as Hlt.
  - apply (Nat.mod_unique _ _ (k / S m)); lia.
  - apply (Nat.mod_unique _ _ (S (k / S m))); lia.
Qed.

Lemma highlighted_lt w i : highlighted w = Some i -> i < length (items w).
Proof.
  unfold highlighted. destruct (querySelected (items w)) as [[j li]|] eqn:Hsel; [|done].
  intros [= <-]. by eapply querySelected_lt.
Qed.

Lemma highlighted_no_rows w : length (items w) = 0 -> highlighted w = None.
Proof.
  intros Hn. destruct (highlighted w) as [i|] eqn:Hi; [|done].
  apply highlighted_lt in Hi. lia.
Qed.

Lemma highlighted_move w target :
  from_option (fun j => j < length (items w)) (length (items w) = 0) target ->
  highlighted (from_option (fun i => selectElement i w) w target) = target.
Proof.
  destruct target as [j|]; cbn.
  - apply highlighted_selectElement.
  - apply highlighted_no_rows.
Qed.

Lemma ArrowDown_highlighted w :
  isOpen w = true ->
  let w' := after (handleKeypress "ArrowDown" w) in
  highlighted w' = rowAfter (length (items w)) (highlighted w)
  /\ isOpen w' = true /\ length (items w') = length (items w).
Proof.
  intros Hopen. rewrite handleKeypress_ArrowDown by done. cbn [after].
  destruct (rowAfter _ _) as [j|] eqn:Hrow.
  - split; [apply highlighted_move; cbn; by eapply rowAfter_lt|].
    cbn [from_option]. by destruct (selectElement_frame j w) as [-> ->].
  - split; [|done]. apply highlighted_move. cbn.
    unfold rowAfter in Hrow. by destruct (length (items w)).
Qed.

Lemma ArrowUp_highlighted w :
  isOpen w = true ->
  highlighted (after (handleKeypress "ArrowUp" w))
  = rowBefore (length (items w)) (highlighted w).
Proof.
  intros Hopen. rewrite handleKeypress_ArrowUp by done. cbn [after].
  apply highlighted_move.
  destruct (rowBefore _ _) as [j|] eqn:Hrow; cbn.
  - eapply rowBefore_lt; [|done].
    destruct (highlighted w) as [i|] eqn:Hi; cbn; [|done]. by apply highlighted_lt.
  - unfold rowBefore in Hrow. by destruct (length (items w)).
Qed.

Lemma run_snoc events e w :
  run (events ++ [e]) w = after (dispatch e (run events w)).
Proof. unfold run. by rewrite foldl_snoc. Qed.

(** From no highlight, [k + 1] presses of ArrowDown highlight row
    [k mod n]. *)
Lemma ArrowDown_repeated w k :
  isOpen w = true -> highlighted w = None -> 0 < length (items w) ->
  let w' := run (replicate (S k) (Key "ArrowDown")) w in
  highlighted w' = Some (k mod length (items w))
  /\ isOpen w' = true /\ length (items w') = length (items w).
Proof.
  intros Hopen Hnone Hn. cbn zeta.
  induction k as [|k (IHrow & IHopen & IHlen)].
  - change (run (replicate 1 (Key "ArrowDown")) w)
      with (after (handleKeypress "ArrowDown" w)).
    destruct (ArrowDown_highlighted w Hopen) as (-> & -> & ->).
    rewrite Hnone, Nat.Div0.mod_0_l. unfold rowAfter.
    by destruct (length (items w)); [lia|].
  - rewrite replicate_S_end, run_snoc.
    change (dispatch (Key "ArrowDown") ?v) with (handleKeypress "ArrowDown" v).
    destruct (ArrowDown_highlighted _ IHopen) as (-> & -> & ->).
    by rewrite IHrow, IHlen, rowAfter_mod.
Qed.

(** C5, as the code has it.  With the picker open, ArrowDown and ArrowUp
    select exactly the row [rowAfter] and [rowBefore] name, wrapping at both
    ends; without rows they leave the state as it is.  From no highlight,
    [k + 1] presses of ArrowDown lead to row [k mod n]: [n] presses end on
    the last row, and it takes [n + 1] to be back on the first. *)
Theorem highlight_moves_with_wraparound w :
  isOpen w = true ->
  let n := length (items w) in
  let down := after (handleKeypress "ArrowDown" w) in
  let up := after (handleKeypress "ArrowUp" w) in
  down = from_option (fun i => selectElement i w) w (rowAfter n (highlighted w))
  /\ up = from_option (fun i => selectElement i w) w (rowBefore n (highlighted w))
  /\ highlighted down = rowAfter n (highlighted w)
  /\ highlighted up = rowBefore n (highlighted w)
  /\ (n = 0 -> down = w /\ up = w)
  /\ (highlighted w = None -> 0 < n ->
      (forall k, highlighted (run (replicate (S k) (Key "ArrowDown")) w) = Some (k mod n))
      /\ highlighted (run (replicate n (Key "ArrowDown")) w) = Some (n - 1)
      /\ highlighted (run (replicate (S n) (Key "ArrowDown")) w) = Some 0).
Proof.
  intros Hopen. cbn zeta. split_and!.
  - by rewrite handleKeypress_ArrowDown.
  - by rewrite handleKeypress_ArrowUp.
  - exact (proj1 (ArrowDown_highlighted w Hopen)).
  - by apply ArrowUp_highlighted.
  - intros Hn. rewrite handleKeypress_ArrowDown, handleKeypress_ArrowUp by done.
    by rewrite Hn.
  - intros Hnone Hn. split_and!.
    + intros k. by apply ArrowDown_repeated.
    + destruct (length (items w)) as [|m] eqn:Hlen; [lia|].
      destruct (ArrowDown_repeated w m Hopen Hnone ltac:(lia)) as (-> & _).
      rewrite Hlen, Nat.mod_small by lia. f_equal. lia.
    + destruct (ArrowDown_repeated w (length (items w)) Hopen Hnone Hn) as (-> & _).
      by rewrite Nat.Div0.mod_same.
Qed.

End Highlight.

Lemma highlight_moves_with_wraparound_witness :
  highlighted (after (handleKeypress "ArrowDown" opened)) = Some 0
  /\ highlighted (after (handleKeypress "ArrowUp" opened)) = Some 2
  /\ highlighted (run (replicate 3 (Key "ArrowDown")) opened) = Some 2
  /\ highlighted (run (replicate 4 (Key "ArrowDown")) opened) = Some 0.
Proof.
  destruct (highlight_moves_with_wraparound opened eq_refl)
    as (_ & _ & Hdown & Hup & _ & Hrepeat).
  destruct (Hrepeat eq_refl) as (_ & Hn & HSn).
  - vm_compute. lia.
  - exact (conj Hdown (conj Hup (conj Hn HSn))).
Defined.

(** C5, as the specification has it.  Three rows, none highlighted: three presses
    of ArrowDown end on the third row, not back on the first. *)
Lemma ArrowDown_N_times_ends_on_last_row :
  length (items opened) = 3 /\ highlighted opened = None
  /\ highlighted (run (replicate 3 (Key "ArrowDown")) opened) = Some 2
  /\ highlighted (run (replicate 3 (Key "ArrowDown")) opened) <> Some 0.
Proof. vm_compute. split_and!; done. Qed.

(** ** The picker: committing and closing *)

Section Picker.

Context {F : Type} `{AsYouType F}.

Implicit Types w : Widget F.

Lemma closeInternationalSelector_effect w :
  let w' := closeInternationalSelector w in
  isOpen w' = false
  /\ released w' = from_option (fun id => id :: released w) (released w) (cleanup w)
  /\ cleanup w' = cleanup w /\ subscriptions w' = subscriptions w
  /\ innerText w' = innerText w /\ caret w' = caret w /\ pending w' = pending w
  /\ asYouType w' = asYouType w /\ value w' = value w /\ flag w' = flag w
  /\ dispatched w' = dispatched w /\ isPristine w' = isPristine w
  /\ items w' = items w /\ defaultCountryCode w' = defaultCountryCode w.
Proof. unfold closeInternationalSelector. cbn. by case_match. Qed.

Lemma focus_effect w :
  let w' := focus w in
  isOpen w' = isOpen w /\ released w' = released w
  /\ cleanup w' = cleanup w /\ subscriptions w' = subscriptions w
  /\ innerText w' = innerText w
  /\ caret w' = (if active w then caret w else Some 0)
  /\ pending w' = pending w
  /\ asYouType w' = asYouType w /\ value w' = value w /\ flag w' = flag w
  /\ isPristine w' = isPristine w
  /\ items w' = items w /\ defaultCountryCode w' = defaultCountryCode w.
Proof. unfold focus. by case_match. Qed.

Lemma setInternationalCode_effect countryCode callingCode w :
  let w' := setInternationalCode countryCode callingCode w in
  innerText w' =
    "+" +:+ callingCode +:+ default "" (nationalNumber <$> getNumber (asYouType w))
  /\ pending w' = (pending w ++ [CaretToEnd])%list
  /\ flag w' = (if truthy (Some countryCode) then Some countryCode else None)
  /\ asYouType w' = asYouType w /\ value w' = value w
  /\ isOpen w' = isOpen w /\ released w' = released w
  /\ cleanup w' = cleanup w /\ subscriptions w' = subscriptions w
  /\ isPristine w' = isPristine w /\ items w' = items w.
Proof.
  unfold setInternationalCode, decorateInputField, focus. cbn.
  by repeat (case_match; simplify_eq/=).
Qed.




Lemma handleKeypress_Enter w i li :
  isOpen w = true -> querySelected (items w) = Some (i, li) ->
  handleKeypress "Enter" w =
    Returned (setInternationalCode (data_country li) (data_calling_code li)
                (closeInternationalSelector w)).
Proof. intros Hopen Hsel. unfold handleKeypress. by rewrite Hopen, Hsel. Qed.

Lemma handleKeypress_dial key w :
  isOpen w = true -> key ∈ dialKeys ->
  handleKeypress key w = updateInputField key (focus (closeInternationalSelector w)).
Proof.
  intros Hopen Hkey. unfold handleKeypress. rewrite Hopen. cbn [negb].
  apply list_elem_of_In in Hkey. cbn in Hkey.
  repeat (destruct Hkey as [<- | Hkey]; [done|]). done.
Qed.



(** C7, as the code has it.  With the picker open and the cleanup of
    subscription [id] stored, every transition to Closed invokes that
    cleanup once and acquires nothing.  The handle stays stored, so a later
    click outside the opener invokes it once more. *)
Theorem closing_invokes_cleanup_once w id e :
  isOpen w = true -> cleanup w = Some id -> closes w e ->
  let w' := after (dispatch e w) in
  isOpen w' = false
  /\ released w' = id :: released w
  /\ subscriptions w' = subscriptions w
  /\ cleanup w' = Some id
  /\ (forall t, t <> OnOpener ->
        released (after (dispatch (Click t) w')) = id :: id :: released w).
Proof.
  intros Hopen Hid Hcloses. cbn zeta.
  assert (forall v, cleanup v = Some id ->
            forall t, t <> OnOpener ->
              released (handleClick t v) = id :: released v
              /\ isOpen (handleClick t v) = false
              /\ subscriptions (handleClick t v) = subscriptions v
              /\ cleanup (handleClick t v) = cleanup v) as Hclick.
  { intros v Hv t Ht.
    assert (released (closeInternationalSelector v) = id :: released v
            /\ isOpen (closeInternationalSelector v) = false
            /\ subscriptions (closeInternationalSelector v) = subscriptions v
            /\ cleanup (closeInternationalSelector v) = cleanup v) as Hplain.
    { destruct (closeInternationalSelector_effect v) as (-> & -> & -> & -> & _).
      by rewrite Hv. }
    destruct t as [|i| |]; [done| |done..]. cbn [handleClick].
    destruct (items v !! i) as [li|]; [|done].
    case_match; [|done].
    destruct (closeInternationalSelector_effect
                (setInternationalCode (data_country li) (data_calling_code li) v))
      as (-> & -> & -> & -> & _).
    destruct (setInternationalCode_effect (data_country li) (data_calling_code li) v)
      as (_ & _ & _ & _ & _ & _ & -> & -> & -> & _).
    by rewrite Hv. }
  assert (isOpen (after (dispatch e w)) = false
          /\ released (after (dispatch e w)) = id :: released w
          /\ subscriptions (after (dispatch e w)) = subscriptions w
          /\ cleanup (after (dispatch e w)) = Some id) as (Hc & Hr & Hs & Hk).
  { destruct (closeInternationalSelector_effect w) as (Hc & Hr & Hk & Hs & _).
    rewrite Hid in Hr, Hk. cbn in Hr.
    destruct Hcloses as [|t Ht|i li Hsel|key Hkey].
    - cbn [dispatch]. unfold handleKeypress. rewrite Hopen. by cbn.
    - cbn [dispatch after]. destruct (Hclick w Hid t Ht) as (-> & -> & -> & ->).
      by rewrite Hid.
    - cbn [dispatch]. rewrite (handleKeypress_Enter _ _ _ Hopen Hsel). cbn [after].
      destruct (setInternationalCode_effect (data_country li) (data_calling_code li)
                  (closeInternationalSelector w))
        as (_ & _ & _ & _ & _ & -> & -> & -> & -> & _).
      done.
    - cbn [dispatch]. rewrite (handleKeypress_dial _ _ Hopen Hkey).
      destruct (updateInputField_frame key (focus (closeInternationalSelector w)))
        as (-> & -> & -> & -> & _).
      by destruct (focus_effect (closeInternationalSelector w))
        as (-> & -> & -> & -> & _). }
  split_and!; [done..|].
  intros t Ht. cbn [dispatch after].
  destruct (Hclick _ Hk t Ht) as (-> & _). by rewrite Hr.
Qed.

(** Opening acquires the next subscription and stores its cleanup. *)
Lemma openInternationalSelector_acquires w :
  let w' := openInternationalSelector w in
  isOpen w' = true /\ cleanup w' = Some (subscriptions w)
  /\ subscriptions w' = S (subscriptions w) /\ released w' = released w.
Proof.
  unfold openInternationalSelector, deselectAll, addSelected. cbn.
  by repeat case_match.
Qed.

(** C8.  A dial key pressed while the picker is open closes the picker,
    gives the field the focus and hands that one key to the editing engine
    as the raw text.  Text, formatter, flag and pending timeouts reach the
    engine as they were: no row is committed on the way. *)
Theorem dial_key_closes_and_forwards w key :
  isOpen w = true -> key ∈ dialKeys ->
  let closed := focus (closeInternationalSelector w) in
  handleKeypress key w = updateInputField key closed
  /\ isOpen closed = false
  /\ innerText closed = innerText w /\ asYouType closed = asYouType w
  /\ flag closed = flag w /\ pending closed = pending w
  /\ isOpen (after (handleKeypress key w)) = false.
Proof.
  intros Hopen Hkey. cbn zeta.
  rewrite (handleKeypress_dial _ _ Hopen Hkey).
  destruct (updateInputField_frame key (focus (closeInternationalSelector w)))
    as (-> & _).
  destruct (focus_effect (closeInternationalSelector w))
    as (-> & _ & _ & _ & -> & _ & -> & -> & _ & -> & _).
  by destruct (closeInternationalSelector_effect w)
    as (-> & _ & _ & _ & -> & _ & -> & -> & _ & -> & _).
Qed.

Lemma openInternationalSelector_effect w :
  let w' := openInternationalSelector w in
  isPristine w' = true /\ innerText w' = innerText w /\ asYouType w' = asYouType w
  /\ defaultCountryCode w' = defaultCountryCode w.
Proof.
  unfold openInternationalSelector, deselectAll, addSelected. cbn.
  by repeat case_match.
Qed.

(** What the pristine step feeds for a dial key: "+" as it is, a digit
    behind a "+", and for "0" the "+" alone. *)
Lemma pristineFeed_dial key (f : F) :
  key ∈ dialKeys ->
  pristineFeed key f
  = if decide (key = "+") then input "+" (reset f)
    else input (if decide (key = "0") then "" else key) (input "+" (reset f)).1.
Proof.
  intros Hkey. apply list_elem_of_In in Hkey. cbn in Hkey.
  repeat (destruct Hkey as [<- | Hkey]; [done|]). done.
Qed.

(** C9, as the code has it.  Opening the picker sets the pristine flag,
    whatever the field holds.  Without default region the next edit
    therefore takes the pristine step and clears the flag again.  For a dial
    key pressed in the open picker the raw text is that key: "+" is fed as
    it is, a digit is fed behind a "+", and "0" is dropped, leaving the "+".
    For a text typed into the field after Escape or an outside click the
    step is taken on the whole text of the field: a text that starts with
    "+" is fed as it stands, any other text behind a "+", after line 255 has
    dealt with a leading "0". *)
Theorem picker_rearms_pristine_step w :
  truthy (defaultCountryCode w) = false ->
  let opened := openInternationalSelector w in
  let fed text (w' : Widget F) :=
    asYouType w' = (pristineFeed text (asYouType w)).1
    /\ innerText w' = (pristineFeed text (asYouType w)).2
    /\ isPristine w' = false in
  isPristine opened = true /\ innerText opened = innerText w
  /\ (forall key, key ∈ dialKeys ->
        fed key (after (dispatch (Key key) opened))
        /\ pristineFeed key (asYouType w)
           = if decide (key = "+") then input "+" (reset (asYouType w))
             else input (if decide (key = "0") then "" else key)
                    (input "+" (reset (asYouType w))).1)
  /\ (forall e text position,
        e ∈ [Key "Escape"; Click Elsewhere; Click OnSelector] ->
        text <> "" ->
        fed text (after (dispatch (Edit text position) (after (dispatch e opened))))).
Proof.
  intros Hregion. cbn zeta.
  destruct (openInternationalSelector_effect w) as (Hp & Ht & Hf & Hd).
  destruct (openInternationalSelector_acquires w) as (Hopen & _).
  split_and!; [done..| |].
  - intros key Hkey. split; [|by apply pristineFeed_dial].
    cbn [dispatch]. rewrite (handleKeypress_dial _ _ Hopen Hkey).
    rewrite <- Hf.
    destruct (focus_effect (closeInternationalSelector (openInternationalSelector w)))
      as (_ & _ & _ & _ & _ & _ & _ & Hf' & _ & _ & Hp' & _ & Hd').
    destruct (closeInternationalSelector_effect (openInternationalSelector w))
      as (_ & _ & _ & _ & _ & _ & _ & Hf'' & _ & _ & _ & Hp'' & _ & Hd'').
    rewrite <- Hf'', <- Hf'.
    apply updateInputField_pristine; congruence.
  - intros e text position He Htext.
    assert (after (dispatch e (openInternationalSelector w))
            = closeInternationalSelector (openInternationalSelector w)) as ->.
    { apply list_elem_of_In in He. cbn in He.
      destruct He as [<- | [<- | [<- | []]]]; [|done..].
      cbn [dispatch]. unfold handleKeypress. by rewrite Hopen. }
    destruct (closeInternationalSelector_effect (openInternationalSelector w))
      as (_ & _ & _ & _ & _ & _ & _ & Hf'' & _ & _ & _ & Hp'' & _ & Hd'').
    cbn [dispatch]. unfold handleInput. cbn [innerText set_caret set_innerText].
    destruct text as [|c text]; [done|].
    rewrite <- Hf, <- Hf''.
    apply (updateInputField_pristine (String c text)
             (set_caret position
                (set_innerText (String c text)
                   (closeInternationalSelector (openInternationalSelector w)))));
      cbn; congruence.
Qed.

End Picker.



Lemma closing_invokes_cleanup_once_witness :
  let w' := after (dispatch (Key "Escape") opened) in
  isOpen w' = false /\ released w' = [0] /\ subscriptions w' = 1.
Proof.
  destruct (closing_invokes_cleanup_once opened 0 (Key "Escape") eq_refl eq_refl
              (closes_escape _))
    as (Hclosed & Hreleased & Hcount & _).
  exact (conj Hclosed (conj Hreleased Hcount)).
Defined.

(** C7, as the specification has it.  One [open()], closed by Escape; a click
    somewhere on the page follows.  The one subscription has been released
    twice. *)
Lemma cleanup_invoked_twice :
  let w := run [Click OnOpener; Key "Escape"; Click Elsewhere] fresh in
  isOpen w = false /\ subscriptions w = 1 /\ released w = [0; 0]
  /\ length (filter (fun id => id = 0) (released w)) <> 1.
Proof. vm_compute. split_and!; done. Qed.

(** A second click on the flag button while the picker is open stores a new
    handle over the first one, which no later close can reach. *)
Example reopening_overwrites_handle :
  let w := run [Click OnOpener; Click OnOpener; Key "Escape"; Click Elsewhere] fresh in
  isOpen w = false /\ subscriptions w = 2 /\ released w = [1; 1].
Proof. vm_compute. done. Qed.

Lemma dial_key_closes_and_forwards_witness :
  handleKeypress "5" opened
    = updateInputField "5" (focus (closeInternationalSelector opened))
  /\ innerText (after (handleKeypress "5" opened)) = "+5"
  /\ isOpen (after (handleKeypress "5" opened)) = false.
Proof.
  assert ("5" ∈ dialKeys) as Hkey by dial_key.
  destruct (dial_key_closes_and_forwards opened "5" eq_refl Hkey)
    as (Hforward & _ & _ & _ & _ & _ & Hclosed).
  split; [exact Hforward|]. split; [reflexivity | exact Hclosed].
Defined.

Lemma picker_rearms_pristine_step_witness :
  isPristine typed = false
  /\ isPristine (openInternationalSelector typed) = true
  /\ innerText (run [Click OnOpener; Key "7"] typed) = "+7"
  /\ innerText (run [Click OnOpener; Key "0"] typed) = "+"
  /\ innerText (run [Click OnOpener; Key "+"] typed) = "+"
  /\ innerText (run [Click OnOpener; Key "Escape"; Edit "0791" (Some 4)] typed) = "+"
  /\ isPristine (run [Click OnOpener; Key "Escape"; Edit "0791" (Some 4)] typed) = false.
Proof.
  destruct (picker_rearms_pristine_step typed eq_refl)
    as (Hflag & _ & Hkey & Htyped).
  assert ("7" ∈ dialKeys) as H7 by dial_key.
  assert ("0" ∈ dialKeys) as H0 by dial_key.
  assert ("+" ∈ dialKeys) as Hplus by dial_key.
  destruct (Hkey "7" H7) as ((_ & Hseven & _) & _).
  destruct (Hkey "0" H0) as ((_ & Hzero & _) & _).
  destruct (Hkey "+" Hplus) as ((_ & Hsign & _) & _).
  destruct (Htyped (Key "Escape") "0791" (Some 4)) as (_ & Htext & Hcleared).
  - apply list_elem_of_In. cbn. tauto.
  - discriminate.
  - split; [reflexivity|]. split; [exact Hflag|]. split; [exact Hseven|].
    split; [exact Hzero|]. split; [exact Hsign|]. split; [exact Htext | exact Hcleared].
Defined.

(** C9, as the specification has it.  The field shows [+41 79]; the picker is
    opened and left by Escape, then [1] is typed at the end.  The flag had
    been set again, yet the edit ends exactly as it does without the picker:
    the text starts with "+", so nothing is inserted or dropped and the
    digit lands behind the others.  The same digit pressed in the open
    picker does take the pristine step and leaves [+1]. *)
Lemma digit_after_picker_is_appended :
  let reopened := run [Click OnOpener; Key "Escape"] typed in
  let with_picker := run [Edit "+41 791" (Some 7)] reopened in
  let without := run [Edit "+41 791" (Some 7)] typed in
  innerText typed = "+41 79" /\ isPristine reopened = true
  /\ innerText with_picker = "+41 79 1" /\ digits (asYouType with_picker) = "41791"
  /\ asYouType with_picker = asYouType without
  /\ innerText with_picker = innerText without
  /\ caret with_picker = caret without /\ value with_picker = value without
  /\ innerText (run [Click OnOpener; Key "1"] typed) = "+1"
  /\ innerText with_picker <> innerText (run [Click OnOpener; Key "1"] typed).
Proof. vm_compute. split_and!; done. Qed.

(** ** Events as chains of steps *)

Section Reach.

Context {F : Type} `{AsYouType F}.

Implicit Types w : Widget F.

Ltac peel :=
  repeat match goal with
  | |- rtc moves ?w ?w => apply rtc_refl
  | |- rtc moves _ (closeInternationalSelector ?v) =>
      apply (rtc_r _ v); [|apply moves_close]
  | |- rtc moves _ (openInternationalSelector ?v) =>
      apply (rtc_r _ v); [|apply moves_open]
  | |- rtc moves _ (setInternationalCode ?c ?k ?v) =>
      apply (rtc_r _ v); [|apply moves_commit]
  | |- rtc moves _ (selectElement ?i ?v) =>
      apply (rtc_r _ v); [|apply moves_select]
  | |- rtc moves _ (focus ?v) => apply (rtc_r _ v); [|apply moves_focus]
  | |- rtc moves _ (after (updateInputField ?t ?v)) =>
      apply (rtc_r _ v); [|apply moves_update]
  | |- rtc moves _ (set_isPristine true ?v) =>
      apply (rtc_r _ v); [|apply moves_pristine]
  | |- rtc moves _ (set_caret ?p (set_innerText ?t ?v)) =>
      apply (rtc_r _ v); [|apply moves_browser]
  | |- rtc moves _ (handleBlur (set_active false ?v)) =>
      apply (rtc_r _ v); [|apply moves_blur]
  end.

Lemma handleKeypress_moves key w : rtc moves w (after (handleKeypress key w)).
Proof.
  unfold handleKeypress.
  destruct (isOpen w); cbn [negb]; [|by peel].
  repeat case_match; cbn [after]; by peel.
Qed.

Lemma handleClick_moves t w : rtc moves w (handleClick t w).
Proof. unfold handleClick. repeat case_match; by peel. Qed.

Lemma runTimers_moves w : rtc moves w (runTimers w).
Proof.
  unfold runTimers. eapply rtc_l; [apply moves_drain|].
  generalize (set_pending [] w).
  induction (pending w) as [|t ts IH]; intros v; [done|].
  cbn. eapply rtc_l; [apply (moves_fire v t)|]. apply IH.
Qed.

(** Every listener is a chain of the steps of [moves]. *)
Lemma dispatch_moves e w : rtc moves w (after (dispatch e w)).
Proof.
  destruct e as [text position|t|key| | |]; cbn [dispatch after].
  - unfold handleInput. cbn [innerText set_caret set_innerText].
    destruct text; cbn [after]; by peel.
  - apply handleClick_moves.
  - apply handleKeypress_moves.
  - by peel.
  - by peel.
  - apply runTimers_moves.
Qed.

Lemma run_moves events w : rtc moves w (run events w).
Proof.
  revert w. induction events as [|e events IH]; intros w; [done|].
  cbn. etrans; [apply (dispatch_moves e w)|]. apply IH.
Qed.

(** What every step keeps, every run of events keeps. *)
Lemma moves_invariant (P : Widget F -> Prop) :
  (forall w w', moves w w' -> P w -> P w') ->
  forall events w, P w -> P (run events w).
Proof.
  intros Hstep events w Hw.
  induction (run_moves events w) as [|u v z Huv _ IH]; [done|]. eauto.
Qed.

(** The fields the editing engine never writes. *)
Lemma updateInputField_keeps text w :
  let w' := after (updateInputField text w) in
  ariaExpanded w' = ariaExpanded w /\ hasFocus w' = hasFocus w
  /\ active w' = active w /\ validationMessage w' = validationMessage w
  /\ defaultCountryCode w' = defaultCountryCode w /\ mobileOnly w' = mobileOnly w.
Proof.
  unfold updateInputField, seedInternational, reformat, setCaretToEnd.
  unfold decorateInputField. cbn. by repeat (case_match; simplify_eq/=).
Qed.

(** The engine sends the host one [input] event when it returns, none when
    it raises. *)
Lemma updateInputField_dispatched text w :
  dispatched (after (updateInputField text w))
  = if returned (updateInputField text w) then EvInput :: dispatched w
    else dispatched w.
Proof.
  unfold updateInputField, seedInternational, reformat, setCaretToEnd.
  unfold decorateInputField. cbn. by repeat (case_match; simplify_eq/=).
Qed.

(** What [constructor] hands over when it succeeds. *)
Lemma constructor_initial p element w :
  constructor p element = Some w ->
  isOpen w = false /\ ariaExpanded w = false /\ isPristine w = true
  /\ cleanup w = None /\ subscriptions w = 0 /\ released w = []
  /\ pending w = [] /\ dispatched w = [] /\ hasFocus w = false
  /\ validationMessage w = ""
  /\ items w = createTextBox (codeCountryMap p)
  /\ defaultCountryCode w = defaultRegion element
  /\ mobileOnly w = mobile_only element.
Proof.
  unfold constructor, decorateInputField. intros Hw.
  repeat (case_match; simplify_eq/=); done.
Qed.

End Reach.

(** ** The catalog at construction *)

Section Sorting.

Variable cmp : Entry -> Entry -> Z.

Lemma insertEntry_perm a l : insertEntry cmp a l ≡ₚ a :: l.
Proof.
  induction l as [|b l IH]; [done|]. cbn. case_match; [done|].
  rewrite IH. apply Permutation_swap.
Qed.

Lemma sortEntries_perm l : sortEntries cmp l ≡ₚ l.
Proof.
  induction l as [|a l IH]; [done|]. cbn.
  by rewrite insertEntry_perm, IH.
Qed.

(** With a comparator that relates any two entries one way or the other,
    inserting into a sorted list leaves it sorted. *)
Hypothesis cmp_total : forall a b, (cmp a b <= 0)%Z \/ (cmp b a <= 0)%Z.

Lemma insertEntry_sorted a l :
  Sorted (fun x y => (cmp x y <= 0)%Z) l ->
  Sorted (fun x y => (cmp x y <= 0)%Z) (insertEntry cmp a l).
Proof.
  induction 1 as [|b l Hl IH Hb]; cbn; [by repeat constructor|].
  destruct (cmp a b <=? 0)%Z eqn:Hab.
  - apply Z.leb_le in Hab. by repeat constructor.
  - apply Z.leb_gt in Hab. constructor; [done|].
    destruct Hb as [|c l Hbc]; cbn.
    + constructor. destruct (cmp_total a b); lia.
    + case_match; constructor; [|done]. destruct (cmp_total a b); lia.
Qed.

Lemma sortEntries_sorted l :
  Sorted (fun x y => (cmp x y <= 0)%Z) (sortEntries cmp l).
Proof.
  induction l as [|a l IH]; [constructor|]. cbn. by apply insertEntry_sorted.
Qed.

End Sorting.

(** ** What holds in every state a widget can reach *)

Section Reachable.

Context {F : Type} `{AsYouType F}.

Implicit Types w : Widget F.

(** The picker fields every step other than opening, closing and selecting
    leaves alone. *)
Lemma setInternationalCode_keeps countryCode callingCode w :
  let w' := setInternationalCode countryCode callingCode w in
  ariaExpanded w' = ariaExpanded w /\ isOpen w' = isOpen w /\ items w' = items w
  /\ cleanup w' = cleanup w /\ subscriptions w' = subscriptions w
  /\ released w' = released w.
Proof.
  unfold setInternationalCode, decorateInputField, focus. cbn.
  by repeat (case_match; simplify_eq/=).
Qed.

Lemma focus_keeps w :
  let w' := focus w in
  ariaExpanded w' = ariaExpanded w /\ isOpen w' = isOpen w /\ items w' = items w
  /\ cleanup w' = cleanup w /\ subscriptions w' = subscriptions w
  /\ released w' = released w.
Proof. unfold focus. by case_match. Qed.

Lemma fire_keeps t w :
  let w' := fire t w in
  ariaExpanded w' = ariaExpanded w /\ isOpen w' = isOpen w /\ items w' = items w
  /\ cleanup w' = cleanup w /\ subscriptions w' = subscriptions w
  /\ released w' = released w.
Proof. destruct t; unfold fire, setCaretToEnd; cbn; by repeat case_match. Qed.

Lemma moves_aria w w' :
  moves w w' -> ariaExpanded w = isOpen w -> ariaExpanded w' = isOpen w'.
Proof.
  intros [text position| |text| | |c k|i| | | |t] Hw; try done.
  - destruct (updateInputField_keeps text w) as (-> & _).
    by destruct (updateInputField_frame text w) as (-> & _).
  - unfold openInternationalSelector, deselectAll, addSelected. cbn.
    by repeat case_match.
  - unfold closeInternationalSelector. cbn. by case_match.
  - by destruct (setInternationalCode_keeps c k w) as (-> & -> & _).
  - by destruct (focus_keeps w) as (-> & -> & _).
  - by destruct (fire_keeps t w) as (-> & -> & _).
Qed.

(** X5.  From construction on, whatever events arrive, [aria-expanded] on
    the text box says whether the picker is open. *)
Theorem aria_expanded_mirrors_isOpen p element w events :
  constructor p element = Some w ->
  ariaExpanded (run events w) = isOpen (run events w).
Proof.
  intros Hw. apply (moves_invariant (fun v => ariaExpanded v = isOpen v)).
  - apply moves_aria.
  - by destruct (constructor_initial _ _ _ Hw) as (-> & -> & _).
Qed.

Lemma withSelected_false_twice li :
  withSelected false (withSelected false li) = withSelected false li.
Proof. done. Qed.

Lemma catalog_deselect (l : list Li) :
  withSelected false <$> (withSelected false <$> l) = withSelected false <$> l.
Proof. rewrite <- list_fmap_compose. by apply list_fmap_ext. Qed.

Lemma catalog_alter b i (l : list Li) :
  withSelected false <$> alter (withSelected b) i l = withSelected false <$> l.
Proof.
  rewrite (list_fmap_alter (withSelected false) (withSelected b) id)
    by (by apply Forall_forall).
  by apply list_alter_id.
Qed.

Lemma moves_catalog w w' : moves w w' -> catalog w' = catalog w.
Proof.
  unfold catalog.
  intros [text position| |text| | |c k|i| | | |t]; try done.
  - by destruct (updateInputField_frame text w) as (_ & _ & _ & _ & -> & _).
  - unfold openInternationalSelector, deselectAll, addSelected. cbn.
    repeat case_match; cbn; by rewrite ?catalog_alter, catalog_deselect.
  - unfold closeInternationalSelector. cbn. by case_match.
  - by destruct (setInternationalCode_keeps c k w) as (_ & _ & -> & _).
  - unfold selectElement, addSelected, deselectAll. cbn.
    by rewrite catalog_alter, catalog_deselect.
  - by destruct (focus_keeps w) as (_ & _ & -> & _).
  - by destruct (fire_keeps t w) as (_ & _ & -> & _).
Qed.

Lemma createTextBox_unselected entries :
  withSelected false <$> createTextBox entries = createTextBox entries.
Proof.
  unfold createTextBox. rewrite <- list_fmap_compose.
  apply list_fmap_ext. by intros i [[name callingCode] countryCode] _.
Qed.

(** No event changes the catalog or the number of rows. *)
Lemma run_catalog events w : catalog (run events w) = catalog w.
Proof.
  apply (moves_invariant (fun v => catalog v = catalog w)); [|done].
  intros u v Huv <-. by apply moves_catalog.
Qed.

Lemma run_length_items events w : length (items (run events w)) = length (items w).
Proof.
  pose proof (f_equal length (run_catalog events w)) as Hlength.
  unfold catalog in Hlength. by rewrite !length_fmap in Hlength.
Qed.

Lemma constructed_length p element w :
  constructor p element = Some w -> length (items w) = length (getCountries p).
Proof.
  intros Hw.
  destruct (constructor_initial _ _ _ Hw)
    as (_ & _ & _ & _ & _ & _ & _ & _ & _ & _ & -> & _).
  unfold createTextBox, codeCountryMap. rewrite length_fmap.
  by rewrite (Permutation_length (sortEntries_perm _ _)), length_fmap.
Qed.

(** X3.  The rows of the picker are those built at construction, in the
    same order, whatever events arrive: only the class [selected] moves. *)
Theorem catalog_is_immutable p element w events :
  constructor p element = Some w ->
  catalog (run events w) = createTextBox (codeCountryMap p)
  /\ length (items (run events w)) = length (getCountries p).
Proof.
  intros Hw. split.
  - rewrite run_catalog. unfold catalog.
    destruct (constructor_initial _ _ _ Hw)
      as (_ & _ & _ & _ & _ & _ & _ & _ & _ & _ & -> & _).
    apply createTextBox_unselected.
  - rewrite run_length_items. by eapply constructed_length.
Qed.

End Reachable.

Section Construction2.

Context {F : Type} `{AsYouType F}.

Implicit Types w : Widget F.

Lemma Sorted_createTextBox (R : string -> string -> Prop) entries :
  Sorted (fun a b : Entry => R a.1.1 b.1.1) entries ->
  Sorted (fun x y => R (countryName x) (countryName y)) (createTextBox entries).
Proof.
  induction 1 as [|[[name callingCode] countryCode] l Hl IH Hhd]; [constructor|].
  cbn. constructor; [done|].
  destruct Hhd as [|[[name' callingCode'] countryCode'] l Hab]; by constructor.
Qed.

(** X1.  A widget that could be built has one row per region of
    [getCountries()], each with that region's calling code and its
    translated name (the region code where there is no name) and none of
    them selected; and if the collator relates any two names one way or the
    other, the rows stand in its order. *)
Theorem constructed_rows p element w :
  (forall a b, (compare p a b <= 0)%Z \/ (compare p b a <= 0)%Z) ->
  constructor p element = Some w ->
  data_country <$> items w ≡ₚ getCountries p
  /\ Sorted (fun x y => (compare p (countryName x) (countryName y) <= 0)%Z) (items w)
  /\ Forall (fun li =>
       selected li = false
       /\ data_calling_code li = getCountryCallingCode p (data_country li)
       /\ countryName li = default (data_country li) (countries p (data_country li)))
       (items w).
Proof.
  intros Htotal Hw.
  destruct (constructor_initial _ _ _ Hw)
    as (_ & _ & _ & _ & _ & _ & _ & _ & _ & _ & -> & _).
  unfold codeCountryMap.
  set (cmp := fun a b : Entry => compare p a.1.1 b.1.1).
  set (entries := (fun c => (default c (countries p c), getCountryCallingCode p c, c))
                    <$> getCountries p).
  split_and!.
  - assert (data_country <$> createTextBox (sortEntries cmp entries)
            = (fun a : Entry => a.2) <$> sortEntries cmp entries) as ->.
    { unfold createTextBox. rewrite <- list_fmap_compose.
      apply list_fmap_ext. by intros i [[name callingCode] countryCode] _. }
    rewrite sortEntries_perm. unfold entries. rewrite <- list_fmap_compose.
    assert ((fun a : Entry => a.2)
              ∘ (fun c => (default c (countries p c), getCountryCallingCode p c, c))
            <$> getCountries p = getCountries p) as ->; [|done].
    rewrite <- (list_fmap_id (getCountries p)) at 2. by apply list_fmap_ext.
  - apply (Sorted_createTextBox (fun a b => (compare p a b <= 0)%Z)).
    apply (sortEntries_sorted cmp). intros a b. apply Htotal.
  - unfold createTextBox. apply Forall_fmap.
    rewrite (sortEntries_perm cmp entries). unfold entries. apply Forall_fmap.
    by apply Forall_forall.
Qed.

Lemma toUpperCase_length s : String.length (toUpperCase s) = String.length s.
Proof. induction s as [|c s IH]; [done|]. cbn. by rewrite IH. Qed.

Lemma upper_upper c : upper (upper c) = upper c.
Proof.
  destruct c as [[] [] [] [] [] [] [] []]; vm_compute; reflexivity.
Qed.

Lemma toUpperCase_twice s : toUpperCase (toUpperCase s) = toUpperCase s.
Proof. induction s as [|c s IH]; [done|]. cbn. by rewrite upper_upper, IH. Qed.

Lemma upper_ascii c : (nat_of_ascii (upper c) <? 128)%nat = (nat_of_ascii c <? 128)%nat.
Proof.
  destruct c as [[] [] [] [] [] [] [] []]; vm_compute; reflexivity.
Qed.

Lemma toUpperCase_isASCII s : isASCII (toUpperCase s) = isASCII s.
Proof. induction s as [|c s IH]; [done|]. cbn [toUpperCase isASCII]. by rewrite upper_ascii, IH. Qed.

(** X2.  The default region is absent exactly when the attribute
    [default-country-code] is missing or empty.  An attribute of ASCII
    characters that is not empty gives a default region: the attribute with
    a-z turned into A-Z, again of ASCII characters, non-empty, of the same
    length, and unchanged by another [toUpperCase]. *)
Theorem defaultRegion_normalised element :
  (defaultRegion element = None <-> truthy (default_country_code element) = false)
  /\ truthy (defaultRegion element) = truthy (default_country_code element)
  /\ (forall raw, default_country_code element = Some raw ->
        raw <> "" -> isASCII raw = true ->
        exists code, defaultRegion element = Some code
          /\ code = toUpperCase raw /\ code <> "" /\ isASCII code = true
          /\ String.length code = String.length raw
          /\ toUpperCase code = code).
Proof.
  unfold defaultRegion.
  destruct (default_country_code element) as [[|c raw]|] eqn:Hattr; cbn.
  - split_and!; [done..|]. by intros raw [= <-].
  - split_and!; [done..|]. intros ? [= <-] _ Hascii.
    exists (toUpperCase (String c raw)). split_and!; [done..| | |].
    + by rewrite toUpperCase_isASCII.
    + apply toUpperCase_length.
    + apply toUpperCase_twice.
  - split_and!; [done..|]. by intros raw.
Qed.

Lemma defaultRegion_normalised_witness :
  let element :=
    {| element_value := ""; default_country_code := Some "ch"; mobile_only := false |} in
  defaultRegion element = Some "CH".
Proof.
  cbn zeta.
  destruct (defaultRegion_normalised
              {| element_value := ""; default_country_code := Some "ch";
                 mobile_only := false |}) as (_ & _ & Hcode).
  destruct (Hcode "ch" eq_refl) as (code & -> & -> & _).
  - discriminate.
  - reflexivity.
  - reflexivity.
Defined.

End Construction2.

Section Bookkeeping.

Context {F : Type} `{AsYouType F}.

Implicit Types w : Widget F.

Lemma filter_selected_deselected (l : list Li) :
  filter (fun li => selected li = true) (withSelected false <$> l) = [].
Proof.
  induction l as [|li l IH]; [done|].
  rewrite fmap_cons, filter_cons_False by done. exact IH.
Qed.

Lemma filter_selected_one i (l : list Li) :
  length (filter (fun li => selected li = true)
            (alter (withSelected true) i (withSelected false <$> l))) <= 1.
Proof.
  revert i. induction l as [|li l IH]; intros [|i]; [cbn; lia..| |].
  - change (alter (withSelected true) 0 (withSelected false <$> li :: l))
      with (withSelected true (withSelected false li) :: (withSelected false <$> l)).
    rewrite filter_cons_True by done.
    by rewrite filter_selected_deselected.
  - change (alter (withSelected true) (S i) (withSelected false <$> li :: l))
      with (withSelected false li
              :: alter (withSelected true) i (withSelected false <$> l)).
    rewrite filter_cons_False by done. apply IH.
Qed.

Lemma openInternationalSelector_items w :
  items (openInternationalSelector w) = (withSelected false <$> items w)
  \/ exists i, items (openInternationalSelector w)
               = alter (withSelected true) i (withSelected false <$> items w).
Proof.
  unfold openInternationalSelector, deselectAll, addSelected. cbn.
  repeat case_match; cbn; eauto.
Qed.

Lemma moves_selectedRows w w' :
  moves w w' -> length (selectedRows w) <= 1 -> length (selectedRows w') <= 1.
Proof.
  unfold selectedRows.
  intros [text position| |text| | |c k|i| | | |t] Hw; try done.
  - by destruct (updateInputField_frame text w) as (_ & _ & _ & _ & -> & _).
  - destruct (openInternationalSelector_items w) as [-> | [i ->]].
    + rewrite filter_selected_deselected. cbn. lia.
    + apply filter_selected_one.
  - by destruct (closeInternationalSelector_effect w)
      as (_ & _ & _ & _ & _ & _ & _ & _ & _ & _ & _ & _ & -> & _).
  - by destruct (setInternationalCode_keeps c k w) as (_ & _ & -> & _).
  - apply filter_selected_one.
  - by destruct (focus_keeps w) as (_ & _ & -> & _).
  - by destruct (fire_keeps t w) as (_ & _ & -> & _).
Qed.

(** X4.  From construction on, whatever events arrive, at most one row
    carries the class [selected], and the highlighted row is a row of the
    catalog. *)
Theorem at_most_one_row_selected p element w events :
  constructor p element = Some w ->
  length (selectedRows (run events w)) <= 1
  /\ from_option (fun i => i < length (getCountries p)) True
       (highlighted (run events w)).
Proof.
  intros Hw. split.
  - apply (moves_invariant (fun v => length (selectedRows v) <= 1)).
    + apply moves_selectedRows.
    + destruct (constructor_initial _ _ _ Hw)
        as (_ & _ & _ & _ & _ & _ & _ & _ & _ & _ & Hitems & _).
      unfold selectedRows. rewrite Hitems, <- createTextBox_unselected.
      rewrite filter_selected_deselected. cbn. lia.
  - destruct (highlighted (run events w)) as [i|] eqn:Hi; [|done]. cbn.
    apply highlighted_lt in Hi.
    by rewrite run_length_items, (constructed_length _ _ _ Hw) in Hi.
Qed.

Lemma moves_subscribed w w' : moves w w' -> subscribed w -> subscribed w'.
Proof.
  unfold subscribed.
  intros [text position| |text| | |c k|i| | | |t] (Hhandle & Hreleased & Hopen);
    try done.
  - by destruct (updateInputField_frame text w) as (-> & -> & -> & -> & _).
  - destruct (openInternationalSelector_acquires w) as (_ & -> & -> & ->).
    split_and!; [done| |lia].
    eapply Forall_impl; [done|]. intros id Hid. cbn in Hid. lia.
  - destruct (closeInternationalSelector_effect w) as (-> & -> & -> & -> & _).
    split_and!; [done| |done].
    destruct (cleanup w) as [id|] eqn:Hid; cbn; [|done].
    constructor; [|done].
    destruct (subscriptions w); simplify_eq/=. lia.
  - by destruct (setInternationalCode_keeps c k w) as (_ & -> & _ & -> & -> & ->).
  - by destruct (focus_keeps w) as (_ & -> & _ & -> & -> & ->).
  - by destruct (fire_keeps t w) as (_ & -> & _ & -> & -> & ->).
Qed.

Lemma subscriptions_close w :
  subscriptions (closeInternationalSelector w) = subscriptions w.
Proof. by destruct (closeInternationalSelector_effect w) as (_ & _ & _ & -> & _). Qed.

Lemma subscriptions_commit c k w :
  subscriptions (setInternationalCode c k w) = subscriptions w.
Proof. by destruct (setInternationalCode_keeps c k w) as (_ & _ & _ & _ & -> & _). Qed.

Lemma subscriptions_focus w : subscriptions (focus w) = subscriptions w.
Proof. by destruct (focus_keeps w) as (_ & _ & _ & _ & -> & _). Qed.

Lemma subscriptions_update text w :
  subscriptions (after (updateInputField text w)) = subscriptions w.
Proof. by destruct (updateInputField_frame text w) as (_ & _ & _ & -> & _). Qed.

Lemma subscriptions_runTimers w : subscriptions (runTimers w) = subscriptions w.
Proof.
  unfold runTimers. change (subscriptions w) with (subscriptions (set_pending [] w)).
  generalize (set_pending [] w).
  induction (pending w) as [|t ts IH]; intros v; [done|].
  cbn. rewrite IH. by destruct (fire_keeps t v) as (_ & _ & _ & _ & -> & _).
Qed.

(** Each click on the opener acquires one subscription; nothing else does. *)
Lemma dispatch_subscriptions e w :
  subscriptions (after (dispatch e w))
  = subscriptions w + (if decide (e = Click OnOpener) then 1 else 0).
Proof.
  destruct e as [text position|t|key| | |]; cbn [dispatch after].
  - rewrite decide_False by done. unfold handleInput.
    cbn [innerText set_caret set_innerText].
    destruct text; cbn [after]; rewrite ?subscriptions_update; cbn; lia.
  - destruct t as [|i| |].
    + rewrite decide_True by done. cbn [handleClick].
      destruct (openInternationalSelector_acquires w) as (_ & _ & -> & _). lia.
    + rewrite decide_False by done. unfold handleClick.
      repeat case_match;
        rewrite ?subscriptions_close, ?subscriptions_commit; lia.
    + rewrite decide_False by done. cbn. rewrite subscriptions_close. lia.
    + rewrite decide_False by done. cbn. rewrite subscriptions_close. lia.
  - rewrite decide_False by done. unfold handleKeypress.
    destruct (isOpen w); cbn [negb after]; [|lia].
    repeat case_match; cbn [after];
      rewrite ?subscriptions_update, ?subscriptions_focus, ?subscriptions_commit,
        ?subscriptions_close; cbn; lia.
  - rewrite decide_False by done. rewrite subscriptions_focus. lia.
  - rewrite decide_False by done. cbn. lia.
  - rewrite decide_False by done. rewrite subscriptions_runTimers. lia.
Qed.

(** X6.  From construction on, whatever events arrive: the stored cleanup
    is the one returned by the latest call of [autoUpdate] (none before the
    first call), an open picker has one, and only cleanups of subscriptions
    that were acquired have been invoked.  Each click on the opener acquires
    one subscription and nothing else does. *)
Theorem subscriptions_accounted p element w events :
  constructor p element = Some w ->
  subscribed (run events w)
  /\ subscriptions (run events w)
     = length (filter (fun e => e = Click OnOpener) events).
Proof.
  intros Hw.
  destruct (constructor_initial _ _ _ Hw)
    as (Hclosed & _ & _ & Hcleanup & Hcount & Hreleased & _).
  split.
  - apply (moves_invariant subscribed); [apply moves_subscribed|].
    unfold subscribed. rewrite Hcleanup, Hcount, Hreleased, Hclosed. by split_and!.
  - rewrite <- (Nat.add_0_l (length _)), <- Hcount. clear.
    revert w. induction events as [|e events IH]; intros w; [cbn; lia|].
    change (run (e :: events) w) with (run events (after (dispatch e w))).
    rewrite IH, dispatch_subscriptions, filter_cons.
    case_decide; cbn; lia.
Qed.

Lemma sent_cons e e' w :
  length (filter (fun x => x = e) (e' :: dispatched w))
  = (if decide (e' = e) then 1 else 0) + sent e w.
Proof. unfold sent. rewrite filter_cons. by case_decide. Qed.

Lemma openInternationalSelector_silent w :
  dispatched (openInternationalSelector w) = dispatched w
  /\ hasFocus (openInternationalSelector w) = hasFocus w.
Proof.
  unfold openInternationalSelector, deselectAll, addSelected. cbn.
  by repeat case_match.
Qed.

Lemma closeInternationalSelector_silent w :
  dispatched (closeInternationalSelector w) = dispatched w
  /\ hasFocus (closeInternationalSelector w) = hasFocus w.
Proof. unfold closeInternationalSelector. cbn. by case_match. Qed.

Lemma focus_host w :
  dispatched (focus w) = (if active w then dispatched w else EvFocus :: dispatched w)
  /\ hasFocus (focus w) = (if active w then hasFocus w else true).
Proof. unfold focus, handleFocus. by case_match. Qed.

Lemma setInternationalCode_host c k w :
  dispatched (setInternationalCode c k w)
  = (if active w then dispatched w else EvFocus :: dispatched w)
  /\ hasFocus (setInternationalCode c k w) = (if active w then hasFocus w else true).
Proof.
  unfold setInternationalCode, decorateInputField, focus, handleFocus. cbn.
  destruct (active w) eqn:Hactive; repeat (case_match; simplify_eq/=);
    first [done | congruence].
Qed.

Lemma moves_focusAccounted w w' :
  moves w w' -> focusAccounted w -> focusAccounted w'.
Proof.
  unfold focusAccounted.
  intros [text position| |text| | |c k|i| | | |t] Hw; try done.
  - destruct (updateInputField_keeps text w) as (_ & -> & _).
    unfold sent at 1 2. rewrite updateInputField_dispatched.
    destruct (returned _); [|done]. by rewrite !sent_cons.
  - unfold sent at 1 2. by destruct (openInternationalSelector_silent w) as [-> ->].
  - unfold sent at 1 2. by destruct (closeInternationalSelector_silent w) as [-> ->].
  - unfold sent at 1 2. destruct (setInternationalCode_host c k w) as [-> ->].
    destruct (active w); [done|]. rewrite !sent_cons.
    repeat case_decide; try done. destruct (hasFocus w); lia.
  - unfold sent at 1 2. destruct (focus_host w) as [-> ->].
    destruct (active w); [done|]. rewrite !sent_cons.
    repeat case_decide; try done. destruct (hasFocus w); lia.
  - destruct t; cbn [fire].
    + unfold setCaretToEnd. destruct (innerText w); exact Hw.
    + destruct (hasFocus w) eqn:Hfocus; [|by rewrite Hfocus].
      unfold sent at 1 2.
      cbn [dispatched hasFocus dispatchEvent set_dispatched set_hasFocus].
      rewrite !sent_cons. repeat case_decide; try done. lia.
Qed.

(** X7.  From construction on, whatever events arrive, the host input has
    been sent no more [blur] events than [focus] events, and strictly fewer
    while the widget counts itself focused. *)
Theorem blur_never_outruns_focus p element w events :
  constructor p element = Some w ->
  sent EvBlur (run events w) + (if hasFocus (run events w) then 1 else 0)
  <= sent EvFocus (run events w).
Proof.
  intros Hw. apply (moves_invariant focusAccounted); [apply moves_focusAccounted|].
  unfold focusAccounted, sent.
  destruct (constructor_initial _ _ _ Hw)
    as (_ & _ & _ & _ & _ & _ & _ & -> & -> & _).
  cbn. lia.
Qed.

End Bookkeeping.

Lemma page_compare_total a b :
  (compare page a b <= 0)%Z \/ (compare page b a <= 0)%Z.
Proof.
  cbn. unfold String.ltb.
  destruct (String.compare a b) eqn:Hab.
  - apply String.compare_eq_iff in Hab as ->. rewrite String.eqb_refl. left. lia.
  - left. lia.
  - rewrite String.compare_antisym, Hab. cbn. right. lia.
Qed.

Lemma constructed_rows_witness :
  data_country <$> items fresh ≡ₚ ["CH"; "DE"; "US"]
  /\ Sorted (fun x y => (compare page (countryName x) (countryName y) <= 0)%Z)
       (items fresh).
Proof.
  destruct (constructed_rows page blank fresh page_compare_total eq_refl)
    as (Hrows & Hsorted & _).
  exact (conj Hrows Hsorted).
Defined.

Lemma aria_expanded_mirrors_isOpen_witness :
  let w := run [Click OnOpener; Key "ArrowDown"; Key "7"; Click OnOpener] fresh in
  isOpen w = true /\ ariaExpanded w = isOpen w.
Proof.
  split; [reflexivity|].
  exact (aria_expanded_mirrors_isOpen page blank fresh
           [Click OnOpener; Key "ArrowDown"; Key "7"; Click OnOpener] eq_refl).
Defined.

Lemma catalog_is_immutable_witness :
  let w := run [Click OnOpener; Key "ArrowUp"; Key "Enter"; Tick] fresh in
  catalog w = items fresh /\ length (items w) = 3.
Proof.
  exact (catalog_is_immutable page blank fresh
           [Click OnOpener; Key "ArrowUp"; Key "Enter"; Tick] eq_refl).
Defined.

Lemma at_most_one_row_selected_witness :
  let w := run [Edit "+4179" (Some 5); Click OnOpener; Key "ArrowDown"] fresh in
  highlighted w = Some 2 /\ length (selectedRows w) <= 1.
Proof.
  split; [reflexivity|].
  exact (proj1 (at_most_one_row_selected page blank fresh
           [Edit "+4179" (Some 5); Click OnOpener; Key "ArrowDown"] eq_refl)).
Defined.

Lemma subscriptions_accounted_witness :
  let w := run [Click OnOpener; Click OnOpener; Key "Escape"; Click Elsewhere] fresh in
  subscribed w /\ subscriptions w = 2.
Proof.
  exact (subscriptions_accounted page blank fresh
           [Click OnOpener; Click OnOpener; Key "Escape"; Click Elsewhere] eq_refl).
Defined.

Lemma blur_never_outruns_focus_witness :
  let w := run [FocusIn; Blur; FocusIn; Tick; Blur; Tick] fresh in
  sent EvFocus w = 2 /\ sent EvBlur w = 1
  /\ sent EvBlur w + (if hasFocus w then 1 else 0) <= sent EvFocus w.
Proof.
  split; [reflexivity|]. split; [reflexivity|].
  exact (blur_never_outruns_focus page blank fresh
           [FocusIn; Blur; FocusIn; Tick; Blur; Tick] eq_refl).
Defined.

(** ** More on the editing engine *)

Section EngineMore.

Context {F : Type} `{AsYouType F}.

Implicit Types w : Widget F.

(** X8.  An edit of the field, whatever its text, leaves the picker as it
    is: open or closed, its rows and highlight, the subscription
    bookkeeping; nor does it touch the pending timeouts, the focus flag or
    the validity message. *)
Theorem edit_leaves_picker_alone text position w :
  let w' := after (dispatch (Edit text position) w) in
  isOpen w' = isOpen w /\ ariaExpanded w' = ariaExpanded w /\ items w' = items w
  /\ cleanup w' = cleanup w /\ released w' = released w
  /\ subscriptions w' = subscriptions w /\ pending w' = pending w
  /\ hasFocus w' = hasFocus w /\ validationMessage w' = validationMessage w.
Proof.
  cbn zeta. cbn [dispatch]. unfold handleInput.
  cbn [innerText set_caret set_innerText].
  destruct text as [|c text]; [done|].
  set (v := set_caret position (set_innerText (String c text) w)).
  destruct (updateInputField_frame (String c text) v) as (-> & -> & -> & -> & -> & ->).
  by destruct (updateInputField_keeps (String c text) v) as (-> & -> & _ & -> & _).
Qed.

(** X9.  When the formatter shows nothing for an edit, the edit raises:
    the field is left empty and the formatter fed, but the host value and
    the flag stay as they were and the host gets no [input] event. *)
Theorem edit_raises_without_display text w :
  (lastFeed text w).2 = "" ->
  exists w',
    updateInputField text w = Thrown w'
    /\ innerText w' = "" /\ asYouType w' = (lastFeed text w).1
    /\ value w' = value w /\ flag w' = flag w /\ dispatched w' = dispatched w.
Proof.
  unfold lastFeed, updateInputField.
  destruct (seedInternational _ _) as [text' seeded] eqn:Hseed. cbn [fst snd].
  assert (value seeded = value w /\ flag seeded = flag w
          /\ dispatched seeded = dispatched w) as (Hv & Hf & Hd).
  { unfold seedInternational, setCaretToEnd in Hseed. cbn in Hseed.
    by repeat (case_match; simplify_eq/=). }
  unfold reformat. destruct (input text' (asYouType seeded)) as [f shown].
  cbn [fst snd]. intros ->. eexists. split; [done|]. cbn.
  by rewrite Hv, Hf, Hd.
Qed.

(** X10.  When the formatter shows something, the edit returns and the
    host mirrors the formatter: its value is the canonical number (empty
    without one), the flag is the detected region (none without one), one
    [input] event has gone out, and the caret lies within the text shown. *)
Theorem edit_mirrors_formatter text w :
  (lastFeed text w).2 <> "" ->
  exists w',
    updateInputField text w = Returned w'
    /\ asYouType w' = (lastFeed text w).1 /\ innerText w' = (lastFeed text w).2
    /\ value w' = default "" (getNumberValue (asYouType w'))
    /\ flag w' = (if truthy (getCountry (asYouType w')) then getCountry (asYouType w')
                  else None)
    /\ dispatched w' = EvInput :: dispatched w
    /\ exists offset, caret w' = Some offset /\ offset <= String.length (innerText w').
Proof.
  unfold lastFeed, updateInputField.
  destruct (seedInternational _ _) as [text' seeded] eqn:Hseed. cbn [fst snd].
  assert (dispatched seeded = dispatched w) as Hd.
  { unfold seedInternational, setCaretToEnd in Hseed. cbn in Hseed.
    by repeat (case_match; simplify_eq/=). }
  unfold reformat. destruct (input text' (asYouType seeded)) as [f shown].
  cbn [fst snd]. intros Hshown. destruct shown as [|c shown]; [done|].
  eexists. split; [done|].
  unfold decorateInputField. rewrite <- Hd.
  destruct (truthy (getCountry f)) eqn:Hc; cbn; rewrite ?Hc;
    (split_and!; [done..|]); eexists; (split; [done|]); lia.
Qed.

(** X11.  With a default region configured, or in a field that is not
    pristine, or for a text that starts with "+", the raw text is fed to the
    reset formatter exactly as it stands, a leading "0" included.  The
    pristine flag is left alone under a default region and is off
    afterwards without one. *)
Theorem raw_text_fed_unchanged text w :
  truthy (defaultCountryCode w) = true \/ isPristine w = false
  \/ startsWith text "+" = true ->
  let w' := after (updateInputField text w) in
  asYouType w' = (input text (reset (asYouType w))).1
  /\ innerText w' = (input text (reset (asYouType w))).2
  /\ isPristine w' = (if truthy (defaultCountryCode w) then isPristine w else false).
Proof.
  intros Hcase. cbn zeta.
  destruct (truthy (defaultCountryCode w)) eqn:Hregion;
    [|destruct (isPristine w) eqn:Hpristine].
  - destruct (updateInputField_plain text w) as [-> ->]; [by left|].
    split_and!; [done..|].
    unfold updateInputField. rewrite seedInternational_skip by (by left).
    by destruct (reformat_feeds text (set_asYouType (reset (asYouType w)) w))
      as (_ & _ & -> & _).
  - destruct Hcase as [?|[?|Hplus]]; [done..|].
    destruct (updateInputField_pristine text w Hregion Hpristine) as (-> & -> & ->).
    unfold pristineFeed. by rewrite Hplus.
  - destruct (updateInputField_plain text w) as [-> ->]; [by right|].
    split_and!; [done..|].
    unfold updateInputField. rewrite seedInternational_skip by (by right).
    by destruct (reformat_feeds text (set_asYouType (reset (asYouType w)) w))
      as (_ & _ & -> & _).
Qed.

(** X12.  Without default region, emptying the field and then typing makes
    a fresh start in every state: whatever was in the formatter or the
    pristine flag before, the new text is fed as to a pristine field, "+"
    first unless it brings its own. *)
Theorem clearing_rearms_pristine_step text before position w :
  truthy (defaultCountryCode w) = false -> text <> "" ->
  let w' := run [Edit "" before; Edit text position] w in
  asYouType w' = (pristineFeed text (asYouType w)).1
  /\ innerText w' = (pristineFeed text (asYouType w)).2
  /\ isPristine w' = false.
Proof.
  intros Hregion Htext. cbn zeta.
  change (run [Edit "" before; Edit text position] w)
    with (after (dispatch (Edit text position)
                   (set_isPristine true (set_caret before (set_innerText "" w))))).
  cbn [dispatch]. unfold handleInput. cbn [innerText set_caret set_innerText].
  destruct text as [|c text]; [done|].
  exact (updateInputField_pristine (String c text)
           (set_caret position
              (set_innerText (String c text)
                 (set_isPristine true (set_caret before (set_innerText "" w)))))
           Hregion eq_refl).
Qed.

End EngineMore.

Lemma edit_raises_without_display_witness :
  exists w',
    updateInputField "abc" typed = Thrown w'
    /\ innerText w' = "" /\ value w' = "+4179" /\ flag w' = Some "CH".
Proof.
  destruct (edit_raises_without_display "abc" typed)
    as (w' & Hrun & Htext & _ & Hvalue & Hflag & _).
  - vm_compute. reflexivity.
  - exists w'. exact (conj Hrun (conj Htext (conj Hvalue Hflag))).
Defined.

Lemma edit_mirrors_formatter_witness :
  exists w',
    updateInputField "+41791234567" fresh = Returned w'
    /\ value w' = "+41791234567" /\ flag w' = Some "CH"
    /\ dispatched w' = [EvInput].
Proof.
  destruct (edit_mirrors_formatter "+41791234567" fresh)
    as (w' & Hrun & Hf & _ & Hvalue & Hflag & Hsent & _).
  - vm_compute. discriminate.
  - exists w'. split; [exact Hrun|].
    rewrite Hvalue, Hflag, Hsent, Hf. vm_compute. done.
Defined.

Lemma raw_text_fed_unchanged_witness :
  innerText (after (updateInputField "0791" typed)) = "0791"
  /\ isPristine (after (updateInputField "0791" typed)) = false.
Proof.
  destruct (raw_text_fed_unchanged "0791" typed) as (_ & Htext & Hpristine).
  - right. left. reflexivity.
  - exact (conj Htext Hpristine).
Defined.

Lemma clearing_rearms_pristine_step_witness :
  let w' := run [Edit "" (Some 0); Edit "7" (Some 1)] typed in
  innerText w' = "+7" /\ isPristine w' = false.
Proof.
  destruct (clearing_rearms_pristine_step "7" (Some 0) (Some 1) typed eq_refl)
    as (_ & Htext & Hpristine).
  - discriminate.
  - exact (conj Htext Hpristine).
Defined.

(** ** More on the picker *)

Section PickerMore.

Context {F : Type} `{AsYouType F}.

Implicit Types w : Widget F.

Lemma queryCountry_deselected country (l : list Li) :
  queryCountry country (withSelected false <$> l)
  = prod_map id (withSelected false) <$> queryCountry country l.
Proof.
  unfold queryCountry. rewrite list_find_fmap. f_equal.
Qed.

Lemma querySelected_deselected (l : list Li) :
  querySelected (withSelected false <$> l) = None.
Proof.
  apply list_find_None, Forall_fmap, Forall_forall. by intros li _.
Qed.

(** X13.  Opening the picker forgets the old highlight and highlights the
    first row of the region the formatter has detected; no row when it has
    detected none or the catalog has no such row. *)
Theorem open_highlights_detected_region w :
  highlighted (openInternationalSelector w)
  = (if truthy (getCountry (asYouType w))
     then fst <$> queryCountry (default "" (getCountry (asYouType w))) (items w)
     else None).
Proof.
  unfold highlighted, openInternationalSelector, deselectAll, addSelected.
  cbn -[queryCountry querySelected].
  destruct (truthy (getCountry (asYouType w))); cbn -[queryCountry querySelected];
    [|by rewrite querySelected_deselected].
  rewrite queryCountry_deselected.
  destruct (queryCountry _ (items w)) as [[i li]|] eqn:Hfound;
    cbn -[queryCountry querySelected].
  - apply list_find_Some in Hfound as (Hi & _).
    by rewrite (querySelected_select _ _ _ Hi).
  - by rewrite querySelected_deselected.
Qed.

(** X14.  The keyboard reaches the editing engine through the dial keys of
    an open picker only.  While the picker is closed a key changes nothing
    at all; while it is open every other key returns and leaves formatter,
    host value and pristine flag as they were. *)
Theorem only_dial_keys_reach_engine key w :
  isOpen w = false \/ key ∉ dialKeys ->
  exists w',
    handleKeypress key w = Returned w'
    /\ asYouType w' = asYouType w /\ value w' = value w
    /\ isPristine w' = isPristine w
    /\ (isOpen w = false -> w' = w).
Proof.
  intros Hcase. unfold handleKeypress.
  destruct (isOpen w) eqn:Hopen; cbn [negb]; [|by eexists].
  destruct Hcase as [?|Hkey]; [done|].
  repeat case_match; try done; eexists; (split; [done|]); try done.
  - destruct (setInternationalCode_effect (data_country l) (data_calling_code l)
                (closeInternationalSelector w))
      as (_ & _ & _ & -> & -> & _ & _ & _ & _ & -> & _).
    by destruct (closeInternationalSelector_effect w)
      as (_ & _ & _ & _ & _ & _ & _ & -> & -> & _ & _ & -> & _).
  - by destruct (closeInternationalSelector_effect w)
      as (_ & _ & _ & _ & _ & _ & _ & -> & -> & _ & _ & -> & _).
Qed.

Lemma fire_quiet t w :
  let w' := fire t w in
  pending w' = pending w /\ innerText w' = innerText w
  /\ asYouType w' = asYouType w /\ value w' = value w /\ flag w' = flag w
  /\ isPristine w' = isPristine w.
Proof. destruct t; unfold fire, setCaretToEnd; cbn; by repeat case_match. Qed.

Lemma set_pending_same w : pending w = [] -> set_pending [] w = w.
Proof. destruct w. cbn. by intros ->. Qed.

Lemma runTimers_quiet w :
  let w' := runTimers w in
  pending w' = [] /\ innerText w' = innerText w /\ asYouType w' = asYouType w
  /\ value w' = value w /\ flag w' = flag w /\ isPristine w' = isPristine w
  /\ isOpen w' = isOpen w /\ items w' = items w.
Proof.
  assert (forall ts v,
    let v' := foldl (fun w t => fire t w) v ts in
    pending v' = pending v /\ innerText v' = innerText v
    /\ asYouType v' = asYouType v /\ value v' = value v /\ flag v' = flag v
    /\ isPristine v' = isPristine v /\ isOpen v' = isOpen v /\ items v' = items v)
    as Hfold.
  { induction ts as [|t ts IH]; intros v; [done|]. cbn.
    destruct (IH (fire t v)) as (-> & -> & -> & -> & -> & -> & -> & ->).
    destruct (fire_quiet t v) as (-> & -> & -> & -> & -> & ->).
    by destruct (fire_keeps t v) as (_ & -> & -> & _). }
  unfold runTimers.
  by destruct (Hfold (pending w) (set_pending [] w))
    as (-> & -> & -> & -> & -> & -> & -> & ->).
Qed.

(** X15.  When the turn ends, every pending timeout has run and none is
    left, so running them again changes nothing.  The timeouts move the
    caret and report a blur; text, formatter, host value, flag, pristine
    flag and picker are not theirs to change. *)
Theorem timeouts_settle w :
  let w' := runTimers w in
  pending w' = [] /\ runTimers w' = w'
  /\ innerText w' = innerText w /\ asYouType w' = asYouType w
  /\ value w' = value w /\ flag w' = flag w /\ isPristine w' = isPristine w
  /\ isOpen w' = isOpen w /\ items w' = items w.
Proof.
  cbn zeta. destruct (runTimers_quiet w) as (Hp & Hrest).
  split; [done|]. split; [|done].
  revert Hp. generalize (runTimers w). intros v Hv.
  unfold runTimers. rewrite Hv. cbn. by apply set_pending_same.
Qed.

End PickerMore.

Lemma only_dial_keys_reach_engine_witness :
  exists w',
    handleKeypress "Escape" choosing = Returned w'
    /\ asYouType w' = asYouType choosing /\ value w' = "+49301234567".
Proof.
  destruct (only_dial_keys_reach_engine "Escape" choosing)
    as (w' & Hrun & Hf & Hv & _).
  - right. intros Hkey. apply list_elem_of_In in Hkey. cbn in Hkey.
    repeat (destruct Hkey as [Hkey | Hkey]; [discriminate Hkey|]). exact Hkey.
  - exists w'. exact (conj Hrun (conj Hf Hv)).
Defined.

Example open_highlights_swiss_row :
  highlighted (openInternationalSelector typed) = Some 1
  /\ highlighted (openInternationalSelector fresh) = None.
Proof. vm_compute. done. Qed.

(** ** Validation through the element *)

Section ElementValidation.

Context {F : Type} `{AsYouType F}.

Implicit Types w : Widget F.

Lemma moves_validationMessage w w' :
  moves w w' -> validationMessage w' = validationMessage w.
Proof.
  intros [text position| |text| | |c k|i| | | |t]; try done.
  - by destruct (updateInputField_keeps text w) as (_ & _ & _ & -> & _).
  - unfold openInternationalSelector, deselectAll, addSelected. cbn.
    by repeat case_match.
  - unfold closeInternationalSelector. cbn. by case_match.
  - unfold setInternationalCode, decorateInputField, focus. cbn.
    by repeat case_match.
  - unfold focus. by case_match.
  - destruct t; unfold fire, setCaretToEnd; cbn; by repeat case_match.
Qed.

(** No listener of the widget writes the validity message. *)
Lemma run_validationMessage events w :
  validationMessage (run events w) = validationMessage w.
Proof.
  apply (moves_invariant (fun v => validationMessage v = validationMessage w));
    [|done].
  intros u v Huv <-. by apply moves_validationMessage.
Qed.

Lemma checkValidity_message w :
  (checkValidity w).1 = false -> validationMessage (checkValidity w).2 <> "".
Proof. unfold checkValidity. by repeat case_match. Qed.

(** X16.  The element's [checkValidity] answers [true] only if both the
    inherited check and the field's check do.  A message attached by a
    failed field check is never taken back by the widget: on an input whose
    inherited check fails while a custom validity message is set, every
    later check answers [false], whatever has been typed or picked in
    between. *)
Theorem failed_check_sticks inherited w events :
  (forall text message, message <> "" -> inherited text message = false) ->
  (checkValidity w).1 = false ->
  let failed := (checkValidity w).2 in
  (elementCheckValidity inherited (run events failed)).1 = false
  /\ (elementCheckValidity inherited (run events failed)).2 = run events failed
  /\ (forall v, (elementCheckValidity inherited v).1 = true ->
        inherited (value v) (validationMessage v) = true /\ (checkValidity v).1 = true).
Proof.
  intros Hcustom Hfailed. cbn zeta.
  assert (inherited (value (run events (checkValidity w).2))
            (validationMessage (run events (checkValidity w).2)) = false) as Hno.
  { apply Hcustom. rewrite run_validationMessage. by apply checkValidity_message. }
  unfold elementCheckValidity. rewrite Hno. split_and!; [done..|].
  intros v. destruct (inherited (value v) (validationMessage v)); cbn;
    [intros Hv; by split | done].
Qed.

End ElementValidation.

(** An input that takes part in constraint validation without further
    constraints: its inherited check fails exactly under a custom message. *)
Lemma failed_check_sticks_witness :
  let inherited := fun (_ message : string) => String.eqb message "" in
  let failed := (checkValidity fresh).2 in
  let corrected := run [Edit "+41791234567" (Some 12)] failed in
  (checkValidity corrected).1 = true
  /\ (elementCheckValidity inherited corrected).1 = false.
Proof.
  split; [reflexivity|].
  refine (proj1 (failed_check_sticks (fun _ message => String.eqb message "") fresh
                   [Edit "+41791234567" (Some 12)] _ eq_refl)).
  intros _ [|c message] Hmessage; [by destruct Hmessage | reflexivity].
Defined.

(** ** Style transfer *)

Section StyleTransfer.

Variable extractStyles : bool -> list string -> string.
Variable innerHeight : nat.

Abbreviation rule := (transferRule extractStyles innerHeight).
Abbreviation walking := (walk extractStyles innerHeight).
Abbreviation extras := (withExtras extractStyles innerHeight).

Lemma transferRule_Loaded cssRule :
  isBase cssRule = match rule cssRule with Loaded => true | _ => false end.
Proof.
  unfold isBase, transferRule.
  destruct (selectorText cssRule) as [selector|]; [|done].
  repeat case_decide; subst; by case_bool_decide; simplify_eq.
Qed.

Lemma insertRule_behind text (walked rest : list CSSRule) cssRule :
  insertRule text (S (length walked)) (walked ++ cssRule :: rest)%list
  = Some ((walked ++ [cssRule; parseRule text]) ++ rest)%list.
Proof.
  unfold insertRule. rewrite decide_True by (rewrite length_app; cbn; lia).
  f_equal. rewrite (cons_middle cssRule walked rest), app_assoc.
  rewrite take_app_length', drop_app_length' by (rewrite length_app; cbn; lia).
  by rewrite <- !app_assoc.
Qed.

(** The walk from rule [length walked] on, with fuel for the rules left. *)
Lemma walk_from rest : forall walked fuel loaded,
  length rest <= fuel ->
  walking fuel (walked ++ rest)%list (length walked) loaded
  = Walked (walked ++ extras rest)%list (loaded || existsb isBase rest).
Proof.
  induction rest as [|cssRule rest IH]; intros walked fuel loaded Hfuel.
  - rewrite app_nil_r.
    destruct fuel; cbn; rewrite lookup_ge_None_2 by done;
      by rewrite orb_false_r, app_nil_r.
  - destruct fuel as [|fuel]; [cbn in Hfuel; lia|]. cbn in Hfuel.
    cbn [walk]. rewrite list_lookup_middle by done.
    cbn [withExtras existsb]. rewrite transferRule_Loaded.
    destruct (rule cssRule) as [|text|] eqn:Hrule.
    + rewrite (cons_middle cssRule walked rest), app_assoc.
      replace (S (length walked)) with (length (walked ++ [cssRule])%list)
        by (rewrite length_app; cbn; lia).
      rewrite IH by lia.
      by rewrite orb_true_r, <- app_assoc.
    + rewrite insertRule_behind.
      replace (S (S (length walked)))
        with (length (walked ++ [cssRule; parseRule text])%list)
        by (rewrite length_app; cbn; lia).
      rewrite IH by lia.
      by rewrite <- app_assoc.
    + rewrite (cons_middle cssRule walked rest), app_assoc.
      replace (S (length walked)) with (length (walked ++ [cssRule])%list)
        by (rewrite length_app; cbn; lia).
      rewrite IH by lia.
      by rewrite <- app_assoc.
Qed.

(** X17.  [transferStyles] comes to an end on every sheet, and no
    [insertRule] lands behind the end of the sheet.  It leaves the rules in
    their order, each rule of the three widget selectors followed by one
    generated rule that the walk steps over, and raises "Could not load
    styles" exactly when there is no sheet or no rule of the base selector. *)
Theorem transferStyles_walks_every_rule_once sheet :
  transferStyles extractStyles innerHeight sheet =
    match sheet with
    | None => CouldNotLoad None
    | Some rules =>
      if existsb isBase rules then Transferred (Some (extras rules))
      else CouldNotLoad (Some (extras rules))
    end.
Proof.
  destruct sheet as [rules|]; [|done]. unfold transferStyles.
  pose proof (walk_from rules [] (length rules) false (le_n _)) as Hwalk.
  cbn in Hwalk. rewrite Hwalk.
  by destruct (existsb isBase rules).
Qed.

End StyleTransfer.

Example transferStyles_on_a_sheet :
  let styles := fun (focused : bool) (_ : list string) =>
                  if focused then "color:blue;" else "color:red;" in
  let plain selector := {| selectorText := Some selector; cssText := selector +:+ "{}" |} in
  transferStyles styles 900
    (Some [plain baseSelector; plain focusSelector; plain dialogSelector; plain "ul"])
  = Transferred
      (Some [plain baseSelector;
             plain focusSelector;
             {| selectorText := Some focusSelector;
                cssText := focusSelector +:+ "{color:blue;}" |};
             plain dialogSelector;
             {| selectorText := Some dialogSelector;
                cssText := dialogSelector +:+ "{color:red; height:300px;" |};
             plain "ul"])
  /\ transferStyles styles 900 (Some [plain focusSelector; plain "ul"])
     = CouldNotLoad
         (Some [plain focusSelector;
                {| selectorText := Some focusSelector;
                   cssText := focusSelector +:+ "{color:blue;}" |};
                plain "ul"]).
Proof. vm_compute. done. Qed.

(** ** Events that leave the number alone *)

Section Untouched.

Context {F : Type} `{AsYouType F}.

Implicit Types w : Widget F.

Lemma closeInternationalSelector_never_opened w :
  isOpen w = false -> ariaExpanded w = false -> cleanup w = None ->
  closeInternationalSelector w = w.
Proof.
  destruct w. cbn. intros -> -> ->. reflexivity.
Qed.

(** X18.  Before the picker has ever been opened there is no cleanup to
    call: a click anywhere but on the opener or on a row then changes
    nothing.  This is so in particular right after construction. *)
Theorem click_before_first_open_is_idle p element w t :
  constructor p element = Some w -> t = OnSelector \/ t = Elsewhere ->
  handleClick t w = w.
Proof.
  intros Hw Ht.
  destruct (constructor_initial _ _ _ Hw) as (Hclosed & Haria & _ & Hcleanup & _).
  destruct Ht as [-> | ->]; cbn [handleClick];
    by apply closeInternationalSelector_never_opened.
Qed.

Lemma number_close w :
  asYouType (closeInternationalSelector w) = asYouType w
  /\ value (closeInternationalSelector w) = value w
  /\ mobileOnly (closeInternationalSelector w) = mobileOnly w.
Proof. unfold closeInternationalSelector. cbn. by case_match. Qed.

Lemma number_open w :
  asYouType (openInternationalSelector w) = asYouType w
  /\ value (openInternationalSelector w) = value w
  /\ mobileOnly (openInternationalSelector w) = mobileOnly w.
Proof.
  unfold openInternationalSelector, deselectAll, addSelected. cbn.
  by repeat case_match.
Qed.

Lemma number_commit c k w :
  asYouType (setInternationalCode c k w) = asYouType w
  /\ value (setInternationalCode c k w) = value w
  /\ mobileOnly (setInternationalCode c k w) = mobileOnly w.
Proof.
  unfold setInternationalCode, decorateInputField, focus. cbn.
  by repeat case_match.
Qed.

Lemma number_focus w :
  asYouType (focus w) = asYouType w /\ value (focus w) = value w
  /\ mobileOnly (focus w) = mobileOnly w.
Proof. unfold focus. by case_match. Qed.

Lemma number_runTimers w :
  asYouType (runTimers w) = asYouType w /\ value (runTimers w) = value w
  /\ mobileOnly (runTimers w) = mobileOnly w.
Proof.
  destruct (runTimers_quiet w) as (_ & _ & -> & -> & _). split_and!; [done..|].
  unfold runTimers. change (mobileOnly w) with (mobileOnly (set_pending [] w)).
  generalize (set_pending [] w).
  induction (pending w) as [|t ts IH]; intros v; [done|].
  cbn. rewrite IH. destruct t; unfold fire, setCaretToEnd; by repeat case_match.
Qed.

(** X19.  Clicks, focus changes and timeouts never feed the formatter nor
    write the host value: the number on record, and with it the verdict of
    [checkValidity], changes through edits and dial keys only.  A region
    picked with the pointer leaves both as they were. *)
Theorem pointer_leaves_number_alone e w :
  match e with Edit _ _ | Key _ => False | _ => True end ->
  let w' := after (dispatch e w) in
  asYouType w' = asYouType w /\ value w' = value w
  /\ (checkValidity w').1 = (checkValidity w).1.
Proof.
  intros He. cbn zeta.
  assert (asYouType (after (dispatch e w)) = asYouType w
          /\ value (after (dispatch e w)) = value w
          /\ mobileOnly (after (dispatch e w)) = mobileOnly w) as (Hf & Hv & Hm).
  { destruct e as [text position|t|key| | |]; try done; cbn [dispatch after].
    - unfold handleClick. repeat case_match;
        rewrite ?(proj1 (number_close _)), ?(proj1 (proj2 (number_close _))),
          ?(proj2 (proj2 (number_close _)));
        first [apply number_open | apply number_commit | done].
    - apply number_focus.
    - apply number_runTimers. }
  split_and!; [done..|]. unfold checkValidity. rewrite Hf, Hm.
  by repeat case_match.
Qed.

End Untouched.

Lemma click_before_first_open_is_idle_witness :
  handleClick Elsewhere fresh = fresh.
Proof.
  apply (click_before_first_open_is_idle page blank fresh Elsewhere eq_refl).
  right. reflexivity.
Defined.

Lemma pointer_leaves_number_alone_witness :
  let picked := after (dispatch (Click (OnItem 1)) choosing) in
  innerText picked = "+41301234567"
  /\ value picked = "+49301234567"
  /\ (checkValidity picked).1 = (checkValidity choosing).1.
Proof.
  destruct (pointer_leaves_number_alone (Click (OnItem 1)) choosing I)
    as (_ & Hvalue & Hverdict).
  split; [reflexivity|]. exact (conj Hvalue Hverdict).
Defined.
